(** * pgstore.Reader: the read path of the PostgreSQL span store

    A shallow embedding of [pgstore/reader.go].  The relational store is a
    record of tables; every [Select] of the reader runs against a connection
    that carries the tables together with a schedule of storage faults, so
    that the error paths of the reader can be exercised.  The reader's
    methods are written in a small state monad over that connection. *)

From Stdlib Require Import ZArith NArith Ascii DecimalString DecimalN.
From stdpp Require Import base option list sorting gmap strings.

Local Open Scope Z_scope.

(** ** Storage schema *)

(** [uint64] values (storage ids, trace-id halves) carry no arithmetic in the
    reader; [time.Time] is the number of nanoseconds elapsed since the zero
    time [time.Time{}], [time.Duration] a signed number of nanoseconds. *)
Definition uint64 := N.
Definition Time := Z.
Definition Duration := Z.
Bind Scope N_scope with uint64.

(** Modelled from the spec: the declarations of [Service] and [Operation]
    are not part of reader.go; the schema is [services(id, service_name)] and
    [operations(id, operation_name)]. *)
Record Service := mkService {
  service_id : uint64;
  ServiceName : string }.

Record Operation := mkOperation {
  operation_id : uint64;
  OperationName : string }.

(** Modelled from the spec: the declaration of [SpanRef] is not part of
    reader.go; the schema is [span_refs(id, child_span_id)], a row linking a
    referencing span row to a referenced (child) span row. *)
Record SpanRef := mkSpanRef {
  span_ref_id : uint64;
  ChildSpanID : uint64 }.

(** Modelled from the spec: the columns of [spans], as in the schema
    [spans(id, trace_id_low, trace_id_high, operation_id, service_id,
    process_id, process_tags, start_time, duration)]. *)
Record span_row := mkSpanRow {
  ID : uint64;
  TraceIDLow : uint64;
  TraceIDHigh : uint64;
  OperationID : uint64;
  ServiceID : uint64;
  ProcessID : string;
  ProcessTags : list (string * string);
  StartTime : Time;
  Duration_ : Duration }.

(** The ORM struct [Span]: the columns plus the relations that
    [Relation("Operation")], [Relation("Service")] and [Relation("SpanRefs")]
    load. *)
Record Span := mkSpan {
  columns :> span_row;
  Span_Operation : Operation;
  Span_Service : Service;
  SpanRefs : list SpanRef }.

Record DB := mkDB {
  services : list Service;
  operations : list Operation;
  spans : list span_row;
  span_refs : list SpanRef }.

(** ** Output model (package [model] of the query service) *)

Module model.

Record TraceID := mkTraceID { Low : uint64; High : uint64 }.

Record Process := mkProcess {
  Process_ServiceName : string;
  Process_Tags : list (string * string) }.

Record Span := mkSpan {
  Span_TraceID : TraceID;
  SpanID : uint64;
  Span_OperationName : string;
  References : list uint64;
  Span_StartTime : Time;
  Span_Duration : Duration;
  Span_ProcessID : string;
  Span_Process : Process }.

Record Trace_ProcessMapping := mkProcessMapping {
  PM_ProcessID : string;
  PM_Process : Process }.

Record Trace := mkTrace {
  Spans : list Span;
  ProcessMap : list Trace_ProcessMapping }.

(** The four fields of a dependency link of the query service. *)
Record DependencyLink := mkDependencyLink {
  Parent : string;
  Child : string;
  CallCount : uint64;
  Source : string }.

Global Instance TraceID_eq_dec : EqDecision TraceID.
Proof. solve_decision. Defined.

Global Instance TraceID_countable : Countable TraceID :=
  inj_countable' (fun t => (Low t, High t)) (fun p => mkTraceID p.1 p.2)
    (fun t => match t with mkTraceID _ _ => eq_refl end).

Global Instance Process_eq_dec : EqDecision Process.
Proof. solve_decision. Defined.

Global Instance DependencyLink_eq_dec : EqDecision DependencyLink.
Proof. solve_decision. Defined.

End model.

(** ** Query parameters (package [spanstore]) *)

Module spanstore.

Record TraceQueryParameters := mkQuery {
  ServiceName : string;
  OperationName : string;
  StartTimeMin : Time;
  StartTimeMax : Time;
  DurationMin : Duration;
  DurationMax : Duration;
  NumTraces : Z }.

Record Operation := mkOperation { Name : string }.

Record OperationQueryParameters := mkOperationQuery {
  OQ_ServiceName : string }.

End spanstore.

(** ** The predicate builder *)

(** A bound parameter ([interface{}] in the source). *)
Inductive param :=
| PString (s : string)
| PUint64 (n : uint64)
| PTime (t : Time)
| PDuration (d : Duration).

Record whereBuilder := mkWhere {
  where_ : string;
  params : list param }.

(** Modelled from the spec: [andWhere] is declared outside reader.go.  It
    records the bound parameter and joins the fragment to the predicate built
    so far with AND, keeping the order of the calls. *)
Definition andWhere (b : whereBuilder) (p : param) (fragment : string)
  : whereBuilder :=
  {| where_ := match where_ b with
               | EmptyString => fragment
               | w => w +:+ " AND " +:+ fragment
               end;
     params := params b ++ [p] |}.

Definition new_builder : whereBuilder := {| where_ := ""; params := [] |}.

(** [len(s) > 0] on a Go string. *)
Definition nonempty (s : string) : bool := (0 <? String.length s)%nat.

(** [t.After(time.Time{})]. *)
Definition After_zero (t : Time) : bool := 0 <? t.

Definition buildTraceWhere (query : spanstore.TraceQueryParameters)
  : whereBuilder :=
  let builder := new_builder in
  let builder :=
    if nonempty (spanstore.ServiceName query)
    then andWhere builder (PString (spanstore.ServiceName query))
                  "service.service_name = ?"
    else builder in
  let builder :=
    if nonempty (spanstore.OperationName query)
    then andWhere builder (PString (spanstore.OperationName query))
                  "operation.operation_name = ?"
    else builder in
  let builder :=
    if After_zero (spanstore.StartTimeMin query)
    then andWhere builder (PTime (spanstore.StartTimeMin query))
                  "start_time >= ?"
    else builder in
  let builder :=
    if After_zero (spanstore.StartTimeMax query)
    then builder (* TODO in the source: no fragment *)
    else builder in
  let builder :=
    if 0 <? spanstore.DurationMin query
    then andWhere builder (PDuration (spanstore.DurationMin query))
                  "duration < ?"
    else builder in
  let builder :=
    if 0 <? spanstore.DurationMax query
    then andWhere builder (PDuration (spanstore.DurationMax query))
                  "duration > ?"
    else builder in
  builder.

(** The builder [GetTrace] fills before it queries: a half of the trace
    identifier is bound only when it is positive. *)
Definition traceWhere (traceID : model.TraceID) : whereBuilder :=
  let builder := new_builder in
  let builder :=
    if (0 <? model.Low traceID)%N
    then andWhere builder (PUint64 (model.Low traceID)) "trace_id_low = ?"
    else builder in
  let builder :=
    if (0 <? model.High traceID)%N
    then andWhere builder (PUint64 (model.High traceID)) "trace_id_high = ?"
    else builder in
  builder.

(** ** The storage engine

    What the collaborating SQL engine does with the statements the reader
    issues: predicate evaluation, joins, ORDER BY, DISTINCT, LIMIT and
    GROUP BY with [count( * )]. *)

(** The row a predicate is evaluated on: a span with the operation and the
    service joined to it (aliases [operation] and [service]). *)
Record joined := mkJoined {
  j_span : span_row;
  j_operation : Operation;
  j_service : Service }.

Definition joined_of_Span (s : Span) : joined :=
  {| j_span := columns s;
     j_operation := Span_Operation s;
     j_service := Span_Service s |}.

(** Splitting a predicate at its top-level [" AND "] separators. *)
Fixpoint split_AND (skip : nat) (cur : string) (s : string) : list string :=
  match s with
  | EmptyString => [String.rev cur]
  | String a s' =>
      match skip with
      | S n => split_AND n cur s'
      | O => if String.prefix " AND " s
             then String.rev cur :: split_AND 4 "" s'
             else split_AND 0 (String a cur) s'
      end
  end.

(** An empty predicate has no conjunct: it constrains nothing. *)
Definition conjuncts (w : string) : list string :=
  match w with
  | EmptyString => []
  | _ => split_AND 0 "" w
  end.

(** One fragment, taking its [?] placeholders from the front of the bound
    parameters.  [None] is a statement the engine rejects. *)
Definition eval_fragment (fragment : string) (ps : list param) (r : joined)
  : option (bool * list param) :=
  if String.eqb fragment "trace_id_low = ?" then
    match ps with
    | PUint64 n :: ps' => Some ((TraceIDLow (j_span r) =? n)%N, ps')
    | _ => None
    end
  else if String.eqb fragment "trace_id_high = ?" then
    match ps with
    | PUint64 n :: ps' => Some ((TraceIDHigh (j_span r) =? n)%N, ps')
    | _ => None
    end
  else if String.eqb fragment "trace_id_low = ? and trace_id_high = ?" then
    match ps with
    | PUint64 lo :: PUint64 hi :: ps' =>
        Some ((TraceIDLow (j_span r) =? lo)%N
              && (TraceIDHigh (j_span r) =? hi)%N, ps')
    | _ => None
    end
  else if String.eqb fragment "service.service_name = ?" then
    match ps with
    | PString s :: ps' => Some (String.eqb (ServiceName (j_service r)) s, ps')
    | _ => None
    end
  else if String.eqb fragment "operation.operation_name = ?" then
    match ps with
    | PString s :: ps' =>
        Some (String.eqb (OperationName (j_operation r)) s, ps')
    | _ => None
    end
  else if String.eqb fragment "start_time >= ?" then
    match ps with
    | PTime t :: ps' => Some (t <=? StartTime (j_span r), ps')
    | _ => None
    end
  else if String.eqb fragment "duration < ?" then
    match ps with
    | PDuration d :: ps' => Some (Duration_ (j_span r) <? d, ps')
    | _ => None
    end
  else if String.eqb fragment "duration > ?" then
    match ps with
    | PDuration d :: ps' => Some (d <? Duration_ (j_span r), ps')
    | _ => None
    end
  else None.

Fixpoint eval_conjuncts (fragments : list string) (ps : list param)
  (r : joined) : option bool :=
  match fragments with
  | [] => match ps with [] => Some true | _ => None end
  | f :: fs =>
      match eval_fragment f ps r with
      | Some (b, ps') =>
          match eval_conjuncts fs ps' r with
          | Some b' => Some (b && b')
          | None => None
          end
      | None => None
      end
  end.

Definition eval_where (w : string) (ps : list param) (r : joined)
  : option bool :=
  eval_conjuncts (conjuncts w) ps r.

(** [WHERE w] over a list of rows; the statement is rejected as soon as the
    predicate cannot be evaluated on a row. *)
Fixpoint select_where {A} (ctx : A -> joined) (w : string) (ps : list param)
  (rows : list A) : option (list A) :=
  match rows with
  | [] => Some []
  | r :: rows' =>
      match eval_where w ps (ctx r), select_where ctx w ps rows' with
      | Some b, Some rest => Some (if b then r :: rest else rest)
      | _, _ => None
      end
  end.

(** [Where(condition, params...)]: the statement carries the condition
    between parentheses, so that an empty condition gives [WHERE ()], which
    the engine rejects. *)
Definition Where {A} (ctx : A -> joined) (condition : string)
  (ps : list param) (rows : list A) : option (list A) :=
  match condition with
  | EmptyString => None
  | _ => select_where ctx condition ps rows
  end.

(** Primary-key lookups; a dangling foreign key loads the zero value. *)
Definition find_service (db : DB) (id : uint64) : Service :=
  default (mkService 0%N "")
    (List.find (fun s => (service_id s =? id)%N) (services db)).

Definition find_operation (db : DB) (id : uint64) : Operation :=
  default (mkOperation 0%N "")
    (List.find (fun o => (operation_id o =? id)%N) (operations db)).

(** [Model(&spans).Relation("Operation").Relation("Service").Relation("SpanRefs")]. *)
Definition load_Span (db : DB) (row : span_row) : Span :=
  {| columns := row;
     Span_Operation := find_operation db (OperationID row);
     Span_Service := find_service db (ServiceID row);
     SpanRefs :=
       List.filter (fun ref => (span_ref_id ref =? ID row)%N) (span_refs db) |}.

(** [FROM spans AS span JOIN operations AS operation ON operation.id =
    span.operation_id JOIN services AS service ON service.id =
    span.service_id]. *)
Definition span_operation_service (db : DB) : list joined :=
  row ← spans db;
  operation ← List.filter (fun o => (operation_id o =? OperationID row)%N)
                          (operations db);
  service ← List.filter (fun s => (service_id s =? ServiceID row)%N)
                        (services db);
  [mkJoined row operation service].

(** [ORDER BY ... ASC]. *)
Definition by_service_name : relation Service :=
  fun a b => (ServiceName a ≤ ServiceName b)%string.
Definition by_operation_name : relation Operation :=
  fun a b => (OperationName a ≤ OperationName b)%string.
Definition by_start_time : relation Span :=
  fun a b => StartTime a <= StartTime b.

Global Instance by_service_name_dec : RelDecision by_service_name.
Proof. intros a b. unfold by_service_name. apply _. Defined.
Global Instance by_operation_name_dec : RelDecision by_operation_name.
Proof. intros a b. unfold by_operation_name. apply _. Defined.
Global Instance by_start_time_dec : RelDecision by_start_time.
Proof. intros a b. unfold by_start_time. apply _. Defined.

Global Instance by_service_name_trans : Transitive by_service_name.
Proof. intros a b c. unfold by_service_name. apply transitivity. Qed.
Global Instance by_service_name_total : Total by_service_name.
Proof. intros a b. unfold by_service_name. apply total; apply _. Qed.
Global Instance by_operation_name_trans : Transitive by_operation_name.
Proof. intros a b c. unfold by_operation_name. apply transitivity. Qed.
Global Instance by_operation_name_total : Total by_operation_name.
Proof. intros a b. unfold by_operation_name. apply total; apply _. Qed.
Global Instance by_start_time_trans : Transitive by_start_time.
Proof. intros a b c. unfold by_start_time. lia. Qed.
Global Instance by_start_time_total : Total by_start_time.
Proof. intros a b. unfold by_start_time. lia. Qed.

(** [DISTINCT]: the first occurrence of every value is kept. *)
Fixpoint distinct `{EqDecision A} (seen : list A) (l : list A) : list A :=
  match l with
  | [] => []
  | x :: l' =>
      if decide (x ∈ seen) then distinct seen l'
      else x :: distinct (x :: seen) l'
  end.

(** [LIMIT n] as the ORM renders it: no clause for [0]; the engine rejects a
    negative count. *)
Definition limit_rows {A} (n : Z) (rows : list A) : option (list A) :=
  if n =? 0 then Some rows
  else if n <? 0 then None
  else Some (take (Z.to_nat n) rows).

(** [GROUP BY key] with [count( * )]: one group per distinct key, in order of
    first occurrence. *)
Fixpoint count_into `{EqDecision K} (k : K) (groups : list (K * N))
  : list (K * N) :=
  match groups with
  | [] => [(k, 1%N)]
  | (k', n) :: groups' =>
      if decide (k = k') then (k', (n + 1)%N) :: groups'
      else (k', n) :: count_into k groups'
  end.

Definition group_count `{EqDecision K} (keys : list K) : list (K * N) :=
  fold_left (fun groups k => count_into k groups) keys [].

(** ** The connection: tables plus a schedule of storage faults *)

Inductive error :=
| ErrStatement                 (* the engine rejected the statement *)
| ErrScan (column : string)    (* a selected column has no field to go to *)
| ErrStorage (msg : string).   (* connectivity and the like *)

(** A fault interrupts a [Select] after [fault_rows] rows have been
    materialized into the destination slice. *)
Record fault := mkFault {
  fault_rows : nat;
  fault_err : error }.

(** [faults] holds the outcome of the next statements, in order; a statement
    past the end of the schedule succeeds. *)
Record Conn := mkConn {
  db : DB;
  faults : list (option fault) }.

Definition M (A : Type) : Type := Conn -> A * Conn.

Global Instance M_ret : MRet M := fun A a c => (a, c).

Global Instance M_bind : MBind M :=
  fun A B k m c => let (a, c') := m c in k a c'.

(** Running one statement: the engine either rejects it, or evaluates it on
    the tables; a scheduled fault cuts the rows short and reports its error.
    Either way the schedule moves on by one statement. *)
Definition Select {A} (statement : DB -> option (list A))
  : M (list A * option error) :=
  fun c =>
    let c' := {| db := db c; faults := tail (faults c) |} in
    match statement (db c) with
    | None => (([], Some ErrStatement), c')
    | Some rows =>
        match faults c with
        | Some f :: _ => ((take (fault_rows f) rows, Some (fault_err f)), c')
        | _ => ((rows, None), c')
        end
    end.

(** ** The reader *)

(** Go's [int] multiplication wraps around at 64 bits. *)
Definition wrap_int (z : Z) : Z := (z + 2 ^ 63) mod 2 ^ 64 - 2 ^ 63.

(** Modelled from the spec: [mapToModelKV] is declared outside reader.go; it
    carries a tag mapping over to the output model unchanged. *)
Definition mapToModelKV (tags : list (string * string))
  : list (string * string) := tags.

(** Modelled from the spec: [toModelSpan] is declared outside reader.go; it
    constructs the span projection in the output model, the trace identifier
    being the span's trace-id pair. *)
Definition toModelSpan (span : Span) : model.Span :=
  {| model.Span_TraceID :=
       {| model.Low := TraceIDLow span; model.High := TraceIDHigh span |};
     model.SpanID := ID span;
     model.Span_OperationName := OperationName (Span_Operation span);
     model.References := ChildSpanID <$> SpanRefs span;
     model.Span_StartTime := StartTime span;
     model.Span_Duration := Duration_ span;
     model.Span_ProcessID := ProcessID span;
     model.Span_Process :=
       {| model.Process_ServiceName := ServiceName (Span_Service span);
          model.Process_Tags := mapToModelKV (ProcessTags span) |} |}.

(** The process mapping both [GetTrace] and [FindTraces] append for a span. *)
Definition processMapping (span : Span) : model.Trace_ProcessMapping :=
  {| model.PM_ProcessID := ProcessID span;
     model.PM_Process :=
       {| model.Process_ServiceName := ServiceName (Span_Service span);
          model.Process_Tags := mapToModelKV (ProcessTags span) |} |}.

Definition GetServices : M (list string * option error) :=
  '(services, err) ←
    Select (fun db => Some (merge_sort by_service_name (services db)));
  let ret :=
    foldl (fun ret service =>
             if nonempty (ServiceName service)
             then ret ++ [ServiceName service]
             else ret) [] services in
  mret (ret, err).

Definition GetOperations (param : spanstore.OperationQueryParameters)
  : M (list spanstore.Operation * option error) :=
  '(operations, err) ←
    Select (fun db => Some (merge_sort by_operation_name (operations db)));
  let ret :=
    foldl (fun ret operation =>
             if nonempty (OperationName operation)
             then ret ++ [spanstore.mkOperation (OperationName operation)]
             else ret) [] operations in
  mret (ret, err).

Definition GetTrace (traceID : model.TraceID)
  : M (model.Trace * option error) :=
  let builder := traceWhere traceID in
  '(spans, err) ←
    Select (fun db =>
              Where joined_of_Span (where_ builder) (params builder)
                (load_Span db <$> spans db));
  let '(ret, ret2) :=
    foldl (fun '(ret, ret2) span =>
             (ret ++ [toModelSpan span], ret2 ++ [processMapping span]))
          ([], []) spans in
  mret ({| model.Spans := ret; model.ProcessMap := ret2 |}, err).

Definition FindTraceIDs (query : spanstore.TraceQueryParameters)
  : M (list model.TraceID * option error) :=
  let builder := buildTraceWhere query in
  let limit := spanstore.NumTraces query in
  let limit := if limit <=? 0 then 10 else limit in
  Select (fun db =>
            rows ← Where id (where_ builder) (params builder)
                     (span_operation_service db);
            limit_rows (wrap_int (100 * limit))
              (distinct []
                 ((fun r => model.mkTraceID (TraceIDLow (j_span r))
                                            (TraceIDHigh (j_span r)))
                    <$> rows))).

(** The body of the inner loop of [FindTraces]: one span is added to the trace
    that [grouping] holds for its trace identifier. *)
Definition group_span (grouping : gmap model.TraceID model.Trace)
  (span : Span) : gmap model.TraceID model.Trace :=
  let modelSpan := toModelSpan span in
  let trace :=
    match grouping !! model.Span_TraceID modelSpan with
    | Some trace => trace
    | None => {| model.Spans := []; model.ProcessMap := [] |}
    end in
  let procMap := processMapping span in
  <[model.Span_TraceID modelSpan :=
      {| model.Spans := model.Spans trace ++ [modelSpan];
         model.ProcessMap := model.ProcessMap trace ++ [procMap] |}]>
    grouping.

(** The loop over [traceIDs]; it stops at the first statement that fails. *)
Fixpoint FindTraces_loop (traceIDs : list model.TraceID)
  (grouping : gmap model.TraceID model.Trace)
  : M (gmap model.TraceID model.Trace * option error) :=
  match traceIDs with
  | [] => mret (grouping, None)
  | traceID :: traceIDs' =>
      '(spans, err) ←
        Select (fun db =>
                  merge_sort by_start_time <$>
                    Where joined_of_Span
                      "trace_id_low = ? and trace_id_high = ?"
                      [PUint64 (model.Low traceID);
                       PUint64 (model.High traceID)]
                      (load_Span db <$> spans db));
      match err with
      | Some e => mret (grouping, Some e)
      | None => FindTraces_loop traceIDs' (foldl group_span grouping spans)
      end
  end.

(** Go leaves the iteration order of [range grouping] unspecified; the
    model takes the order of [map_to_list]. *)
Definition FindTraces (query : spanstore.TraceQueryParameters)
  : M (list model.Trace * option error) :=
  '(traceIDs, err) ← FindTraceIDs query;
  let ret : list model.Trace := [] in
  match err with
  | Some e => mret (ret, Some e)
  | None =>
      '(grouping, err) ← FindTraces_loop traceIDs ∅;
      match err with
      | Some e => mret (ret, Some e)
      | None =>
          mret (foldl (fun ret trace => ret ++ [trace]) ret
                        (snd <$> map_to_list grouping), err)
      end
  end.

(** The statement of [GetDependencies]: four joins, then GROUP BY the four
    selected columns. *)
Definition dependency_rows (db : DB)
  : list (uint64 * string * uint64 * string) :=
  span_ref ← span_refs db;
  source_spans ← List.filter (fun s => (ID s =? span_ref_id span_ref)%N)
                             (spans db);
  source_service ←
    List.filter (fun s => (service_id s =? ServiceID source_spans)%N)
                (services db);
  child_spans ← List.filter (fun s => (ID s =? ChildSpanID span_ref)%N)
                            (spans db);
  child_service ←
    List.filter (fun s => (service_id s =? ServiceID source_spans)%N)
                (services db);
  [(ServiceID source_spans, ServiceName source_service,
    ServiceID child_spans, ServiceName child_service)].

(** The text of an integer column, as a string field receives it. *)
Definition column_text (n : uint64) : string :=
  NilEmpty.string_of_uint (N.to_uint n).

(** One row of the statement scanned into a [model.DependencyLink]: the
    columns [parent], [child] and [call_count] go to the fields of these
    names; [parent_name] and [child_name] have no field to go to. *)
Definition scan_link (row : uint64 * string * uint64 * string * N)
  : model.DependencyLink :=
  let '((parent, parent_name, child, child_name), call_count) := row in
  {| model.Parent := column_text parent;
     model.Child := column_text child;
     model.CallCount := call_count;
     model.Source := "" |}.

(** [Select(&ret)] scans every row it receives and reports the first column
    it could not place, [parent_name], as the error of the statement. *)
Definition GetDependencies (endTs : Time) (lookback : Duration)
  : M (list model.DependencyLink * option error) :=
  '(rows, err) ← Select (fun db => Some (group_count (dependency_rows db)));
  let ret := scan_link <$> rows in
  mret (ret, match rows with
             | [] => err
             | _ :: _ => Some (ErrScan "parent_name")
             end).

(** * Specification vocabulary *)

(** The fault scheduled for the next statement, and what a destination slice
    holds once that statement has run. *)
Definition scheduled_fault (c : Conn) : option fault :=
  match faults c with
  | Some f :: _ => Some f
  | _ => None
  end.

Definition materialized {A} (c : Conn) (rows : list A) : list A :=
  match scheduled_fault c with
  | Some f => take (fault_rows f) rows
  | None => rows
  end.

Definition next (c : Conn) : Conn :=
  {| db := db c; faults := tail (faults c) |}.

(** Whatever a statement reports comes from the engine or from the schedule. *)
Definition raised_by (c : Conn) (e : error) : Prop :=
  e = ErrStatement \/ exists f, Some f ∈ faults c /\ e = fault_err f.

(** What [GetTrace]'s predicate keeps: a half of the identifier constrains
    the span only when it is non-zero. *)
Definition trace_filter (traceID : model.TraceID) (s : Span) : bool :=
  ((model.Low traceID =? 0)%N || (TraceIDLow s =? model.Low traceID)%N)
  && ((model.High traceID =? 0)%N || (TraceIDHigh s =? model.High traceID)%N).

(** What the predicate of one trace of [FindTraces] keeps. *)
Definition same_trace (traceID : model.TraceID) (s : Span) : bool :=
  (TraceIDLow s =? model.Low traceID)%N
  && (TraceIDHigh s =? model.High traceID)%N.

(** One fragment with its one bound parameter, evaluated on a row. *)
Definition fragment_holds (fp : string * param) (r : joined) : bool :=
  match eval_fragment fp.1 [fp.2] r with
  | Some (b, []) => b
  | _ => false
  end.

(** The fragments a criteria value calls for, in the order service,
    operation, start time, duration bounds: a name counts when it is not
    empty, a time or a duration when it is strictly positive. *)
Definition spec_fragments (q : spanstore.TraceQueryParameters)
  : list (string * param) :=
  (if decide (spanstore.ServiceName q <> "")
   then [("service.service_name = ?", PString (spanstore.ServiceName q))]
   else [])
  ++ (if decide (spanstore.OperationName q <> "")
      then [("operation.operation_name = ?",
             PString (spanstore.OperationName q))]
      else [])
  ++ (if decide (0 < spanstore.StartTimeMin q)
      then [("start_time >= ?", PTime (spanstore.StartTimeMin q))]
      else [])
  ++ (if decide (0 < spanstore.DurationMin q)
      then [("duration < ?", PDuration (spanstore.DurationMin q))]
      else [])
  ++ (if decide (0 < spanstore.DurationMax q)
      then [("duration > ?", PDuration (spanstore.DurationMax q))]
      else []).

Fixpoint join_AND (fragments : list string) : string :=
  match fragments with
  | [] => ""
  | [f] => f
  | f :: fs => f +:+ " AND " +:+ join_AND fs
  end.

(** The count [FindTraceIDs] works with: [numTraces], or 10 when that is
    not positive. *)
Definition limit_of (q : spanstore.TraceQueryParameters) : Z :=
  if spanstore.NumTraces q <=? 0 then 10 else spanstore.NumTraces q.

(** The rows [FindTraceIDs] selects from. *)
Definition matching_rows (q : spanstore.TraceQueryParameters) (db : DB)
  : list joined :=
  List.filter (fun r => forallb (fun fp => fragment_holds fp r)
                                (spec_fragments q))
              (span_operation_service db).

(** Spans in ascending order of start time: a span that starts strictly
    earlier sits at a smaller index. *)
Definition by_Span_StartTime : relation model.Span :=
  fun a b => model.Span_StartTime a <= model.Span_StartTime b.

Definition ordered_by_start_time (l : list model.Span) : Prop :=
  forall i j A B,
    l !! i = Some A -> l !! j = Some B ->
    model.Span_StartTime A < model.Span_StartTime B -> (i < j)%nat.

(** A trace whose spans and process map were appended side by side from the
    same rows. *)
Definition assembled_from (rows : list Span) (t : model.Trace) : Prop :=
  model.Spans t = (toModelSpan <$> rows) /\
  model.ProcessMap t = (processMapping <$> rows).

Definition one_entry_per_span (t : model.Trace) : Prop :=
  exists rows, assembled_from rows t.

(** The distinct process identifiers among the spans of a trace. *)
Definition process_ids (t : model.Trace) : list string :=
  distinct [] (model.Span_ProcessID <$> model.Spans t).

(** The trace identifiers of a list of joined rows, without repetition. *)
Definition trace_ids (rows : list joined) : list model.TraceID :=
  distinct []
    ((fun r => model.mkTraceID (TraceIDLow (j_span r)) (TraceIDHigh (j_span r)))
       <$> rows).

(** The rows [FindTraces] reads for one trace identifier. *)
Definition trace_rows (traceID : model.TraceID) (db : DB) : list Span :=
  merge_sort by_start_time
    (List.filter (same_trace traceID) (load_Span db <$> spans db)).

(** The invariant of the loop of [FindTraces]: identifiers still to be read have no trace yet,
    and every trace grouped so far is sorted. *)
Definition sorted_so_far (traceIDs : list model.TraceID)
  (grouping : gmap model.TraceID model.Trace) : Prop :=
  NoDup traceIDs /\
  (forall k, k ∈ traceIDs -> grouping !! k = None) /\
  (forall k t, grouping !! k = Some t ->
               StronglySorted by_Span_StartTime (model.Spans t)).

(** The process map as the reader builds it: the mappings of the spans, one
    by one, so as many entries as spans and no fewer than there are distinct
    process identifiers. *)
Definition per_span_process_map (t : model.Trace) : Prop :=
  one_entry_per_span t /\
  length (model.ProcessMap t) = length (model.Spans t) /\
  model.PM_ProcessID <$> model.ProcessMap t
  = model.Span_ProcessID <$> model.Spans t /\
  (length (process_ids t) <= length (model.ProcessMap t))%nat.

(** The invariant of the loop of [FindTraces] behind the process maps. *)
Definition per_span_so_far (traceIDs : list model.TraceID)
  (grouping : gmap model.TraceID model.Trace) : Prop :=
  forall k t, grouping !! k = Some t -> one_entry_per_span t.

(** The sum of the call counts of a list of dependency links. *)
Definition total_calls (links : list model.DependencyLink) : N :=
  foldr (fun link n => (model.CallCount link + n)%N) 0%N links.

(** * Example stores *)

Module example.

(** Two traces that share the low half of their identifier: (7,1) with
    three spans, two of them of the same process, and (7,2) with one. *)
Definition shop : DB :=
  {| services := [mkService 2 "backend"; mkService 1 "frontend";
                  mkService 3 ""];
     operations := [mkOperation 1 "GET /"; mkOperation 2 "query";
                    mkOperation 3 ""];
     spans := [mkSpanRow 1 7 1 1 1 "p1" [] 100 20;
               mkSpanRow 2 7 1 2 2 "p2" [] 110 3;
               mkSpanRow 3 7 1 2 2 "p2" [] 105 4;
               mkSpanRow 4 7 2 1 1 "p1" [] 200 10];
     span_refs := [mkSpanRef 1 2] |}.

Definition trace_7_1 : model.TraceID := model.mkTraceID 7 1.
Definition trace_7_2 : model.TraceID := model.mkTraceID 7 2.

Definition down : error := ErrStorage "connection reset".

(** Span S1 of service "a", span S2 of service "b", and [edges] reference
    edges from S1 to S2. *)
Definition a_calls_b (edges : nat) : DB :=
  {| services := [mkService 1 "a"; mkService 2 "b"];
     operations := [mkOperation 1 "call"];
     spans := [mkSpanRow 1 5 0 1 1 "p1" [] 100 20;
               mkSpanRow 2 5 0 1 2 "p2" [] 110 3];
     span_refs := replicate edges (mkSpanRef 1 2) |}.

Definition no_criteria (numTraces : Z) : spanstore.TraceQueryParameters :=
  spanstore.mkQuery "" "" 0 0 0 0 numTraces.

(** The traces in which a service takes part. *)
Definition of_service (name : string) (numTraces : Z)
  : spanstore.TraceQueryParameters :=
  spanstore.mkQuery name "" 0 0 0 0 numTraces.

(** The traces in which an operation takes place. *)
Definition of_operation (name : string) : spanstore.TraceQueryParameters :=
  spanstore.mkQuery "" name 0 0 0 0 0.

Definition duration_between (lo hi : Duration)
  : spanstore.TraceQueryParameters :=
  spanstore.mkQuery "" "" 0 0 lo hi 0.

(** A joined row whose span lasts [d]. *)
Definition row_of_duration (d : Duration) : joined :=
  mkJoined (mkSpanRow 4 7 2 1 1 "p1" [] 200 d)
           (mkOperation 1 "GET /") (mkService 1 "frontend").

End example.

(** * Further vocabulary *)

(** A connection on which no statement is going to fail. *)
Definition healthy (c : Conn) : Prop :=
  forallb (fun f => match f with None => true | Some _ => false end)
          (faults c) = true.

(** The trace identifier a stored span carries. *)
Definition trace_id_of (s : span_row) : model.TraceID :=
  model.mkTraceID (TraceIDLow s) (TraceIDHigh s).

(** A stored span with the operation and the service its foreign keys name. *)
Definition joins (db : DB) (span : span_row) (operation : Operation)
  (service : Service) : Prop :=
  span ∈ spans db /\ operation ∈ operations db /\ service ∈ services db /\
  operation_id operation = OperationID span /\
  service_id service = ServiceID span.

(** What the predicate of [buildTraceWhere] asks of a joined span, criterion
    by criterion, with the comparisons the source binds. *)
Definition matches (q : spanstore.TraceQueryParameters) (span : span_row)
  (operation : Operation) (service : Service) : Prop :=
  (spanstore.ServiceName q <> "" ->
   ServiceName service = spanstore.ServiceName q) /\
  (spanstore.OperationName q <> "" ->
   OperationName operation = spanstore.OperationName q) /\
  (0 < spanstore.StartTimeMin q ->
   spanstore.StartTimeMin q <= StartTime span) /\
  (0 < spanstore.DurationMin q ->
   Duration_ span < spanstore.DurationMin q) /\
  (0 < spanstore.DurationMax q ->
   spanstore.DurationMax q < Duration_ span).

(** All the stored spans of one trace identifier, in order of start time,
    with their process mappings. *)
Definition whole_trace (db : DB) (traceID : model.TraceID) : model.Trace :=
  {| model.Spans := toModelSpan <$> trace_rows traceID db;
     model.ProcessMap := processMapping <$> trace_rows traceID db |}.

(** The stored spans of one trace identifier, in storage order. *)
Definition stored_spans (db : DB) (traceID : model.TraceID) : list Span :=
  List.filter (same_trace traceID) (load_Span db <$> spans db).

Definition with_StartTimeMax (q : spanstore.TraceQueryParameters) (t : Time)
  : spanstore.TraceQueryParameters :=
  {| spanstore.ServiceName := spanstore.ServiceName q;
     spanstore.OperationName := spanstore.OperationName q;
     spanstore.StartTimeMin := spanstore.StartTimeMin q;
     spanstore.StartTimeMax := t;
     spanstore.DurationMin := spanstore.DurationMin q;
     spanstore.DurationMax := spanstore.DurationMax q;
     spanstore.NumTraces := spanstore.NumTraces q |}.

(** The two services a dependency link joins. *)
Definition link_ends (link : model.DependencyLink) : string * string :=
  (model.Parent link, model.Child link).

(** The same of a row of the statement. *)
Definition row_ends (row : uint64 * string * uint64 * string)
  : string * string :=
  let '(parent, parent_name, child, child_name) := row in
  (column_text parent, column_text child).

Definition occurrences `{EqDecision A} (x : A) (l : list A) : nat :=
  length (List.filter (fun y => bool_decide (y = x)) l).

(** The count a list of groups holds for a key, 0 when it holds none. *)
Fixpoint count_of `{EqDecision K} (k : K) (groups : list (K * N)) : N :=
  match groups with
  | [] => 0%N
  | (k', n) :: groups' => if decide (k = k') then n else count_of k groups'
  end.

(** A link as [GetDependencies] derives it from one stored reference edge
    of which the referencing span, its service and the referenced span are
    stored: the service ids of the two spans, as text. *)
Definition edge_link (db : DB) (link : model.DependencyLink) : Prop :=
  exists ref source_spans source_service child_spans,
    ref ∈ span_refs db /\
    source_spans ∈ spans db /\ ID source_spans = span_ref_id ref /\
    source_service ∈ services db /\
    service_id source_service = ServiceID source_spans /\
    child_spans ∈ spans db /\ ID child_spans = ChildSpanID ref /\
    model.Parent link = column_text (ServiceID source_spans) /\
    model.Child link = column_text (ServiceID child_spans) /\
    model.Source link = "".

(** Criteria of which [buildTraceWhere] binds at least one. *)
Definition has_criterion (q : spanstore.TraceQueryParameters) : Prop :=
  where_ (buildTraceWhere q) <> "".

(** * Properties *)

(** ** The connection *)

Lemma Select_Some {A} (statement : DB -> option (list A)) c rows :
  statement (db c) = Some rows ->
  Select statement c
  = ((materialized c rows, fault_err <$> scheduled_fault c), next c).
Proof.
  intros Hst. unfold Select, materialized, scheduled_fault, next.
  rewrite Hst. destruct (faults c) as [|[f|] fs]; reflexivity.
Qed.

Lemma Select_None {A} (statement : DB -> option (list A)) c :
  statement (db c) = None ->
  Select statement c = (([], Some ErrStatement), next c).
Proof. intros Hst. unfold Select, next. rewrite Hst. reflexivity. Qed.

Lemma Select_error {A} (statement : DB -> option (list A)) c rows e c' :
  Select statement c = ((rows, Some e), c') -> raised_by c e.
Proof.
  unfold Select, raised_by. destruct (statement (db c)) as [rs|].
  - destruct (faults c) as [|[f|] fs] eqn:Hf; intros [= <- <- <-]; try done.
    right. exists f. split; [apply list_elem_of_here | done].
  - intros [= <- <- <-]. by left.
Qed.

Lemma Select_next {A} (statement : DB -> option (list A)) c :
  (Select statement c).2 = next c.
Proof.
  unfold Select, next. destruct (statement (db c));
    [destruct (faults c) as [|[f|] fs]|]; reflexivity.
Qed.

Lemma raised_by_next c e : raised_by (next c) e -> raised_by c e.
Proof.
  intros [->|(f & Hf & ->)]; [by left|right].
  exists f. split; [|done]. unfold next in Hf. simpl in Hf.
  destruct (faults c); [done|]. by apply list_elem_of_further.
Qed.

(** ** Loops that append *)

Lemma foldl_append_if {A B} (p : A -> bool) (f : A -> B) l acc :
  foldl (fun ret x => if p x then ret ++ [f x] else ret) acc l
  = acc ++ (f <$> List.filter p l).
Proof.
  revert acc. induction l as [|x l IH]; intros acc; simpl.
  - by rewrite app_nil_r.
  - rewrite IH. destruct (p x); simpl; [|done].
    by rewrite <- app_assoc.
Qed.

Lemma foldl_append_pair {A B C} (f : A -> B) (g : A -> C) l acc1 acc2 :
  foldl (fun '(ret, ret2) x => (ret ++ [f x], ret2 ++ [g x])) (acc1, acc2) l
  = (acc1 ++ (f <$> l), acc2 ++ (g <$> l)).
Proof.
  revert acc1 acc2. induction l as [|x l IH]; intros acc1 acc2; simpl.
  - by rewrite !app_nil_r.
  - rewrite IH. by rewrite <- !app_assoc.
Qed.

Lemma foldl_append {A} (l acc : list A) :
  foldl (fun ret x => ret ++ [x]) acc l = acc ++ l.
Proof.
  revert acc. induction l as [|x l IH]; intros acc; simpl.
  - by rewrite app_nil_r.
  - rewrite IH. by rewrite <- app_assoc.
Qed.

(** ** The engine *)

Lemma select_where_filter {A} (ctx : A -> joined) w ps (P : A -> bool) rows :
  (forall r, eval_where w ps (ctx r) = Some (P r)) ->
  select_where ctx w ps rows = Some (List.filter P rows).
Proof.
  intros Hev. induction rows as [|r rows IH]; simpl; [done|].
  by rewrite Hev, IH.
Qed.

Lemma distinct_spec `{EqDecision A} (l seen : list A) :
  NoDup (distinct seen l) /\
  forall x, x ∈ distinct seen l <-> x ∈ l /\ x ∉ seen.
Proof.
  revert seen. induction l as [|a l IH]; intros seen; simpl.
  - split; [constructor|]. intros x. rewrite elem_of_nil. tauto.
  - destruct (decide (a ∈ seen)) as [Hin|Hnin].
    + destruct (IH seen) as [Hnd Hel]. split; [done|].
      intros x. rewrite Hel, elem_of_cons.
      split; [tauto|]. intros [[->|?] ?]; tauto.
    + destruct (IH (a :: seen)) as [Hnd Hel]. split.
      * constructor; [|done]. rewrite Hel, elem_of_cons. tauto.
      * intros x. rewrite !elem_of_cons, Hel, elem_of_cons.
        destruct (decide (x = a)) as [->|]; tauto.
Qed.

Lemma NoDup_take {A} (l : list A) n : NoDup l -> NoDup (take n l).
Proof. intros Hnd. exact (sublist_NoDup _ _ Hnd (sublist_take l n)). Qed.

Lemma limit_rows_NoDup {A} n (l l' : list A) :
  limit_rows n l = Some l' -> NoDup l -> NoDup l'.
Proof.
  unfold limit_rows. destruct (n =? 0); [by intros [= <-]|].
  destruct (n <? 0); [done|]. intros [= <-]. apply NoDup_take.
Qed.

Lemma limit_rows_length {A} n (l l' : list A) :
  0 < n -> limit_rows n l = Some l' -> Z.of_nat (length l') <= n.
Proof.
  intros Hn. unfold limit_rows.
  destruct (Z.eqb_spec n 0); [lia|]. destruct (Z.ltb_spec n 0); [lia|].
  intros [= <-]. rewrite length_take. lia.
Qed.

Lemma materialized_NoDup {A} c (l : list A) :
  NoDup l -> NoDup (materialized c l).
Proof.
  unfold materialized. destruct (scheduled_fault c); [apply NoDup_take|done].
Qed.

Lemma materialized_length {A} c (l : list A) :
  (length (materialized c l) <= length l)%nat.
Proof.
  unfold materialized. destruct (scheduled_fault c); [|done].
  rewrite length_take. lia.
Qed.

Lemma StronglySorted_take {A} (R : relation A) n l :
  StronglySorted R l -> StronglySorted R (take n l).
Proof.
  intros Hs. rewrite <- (take_drop n l) in Hs.
  by apply StronglySorted_app_1_l in Hs.
Qed.

Lemma materialized_StronglySorted {A} (R : relation A) c l :
  StronglySorted R l -> StronglySorted R (materialized c l).
Proof.
  unfold materialized. destruct (scheduled_fault c);
    [apply StronglySorted_take|done].
Qed.

Lemma StronglySorted_filter {A} (R : relation A) (p : A -> bool) l :
  StronglySorted R l -> StronglySorted R (List.filter p l).
Proof.
  induction 1 as [|x l Hs IH Hall]; simpl; [constructor|].
  destruct (p x); [|done]. constructor; [done|].
  rewrite Forall_forall in *. intros y Hy. apply Hall.
  apply list_elem_of_In in Hy. apply list_elem_of_In.
  apply filter_In in Hy. tauto.
Qed.

Lemma materialized_subseteq {A} c (l : list A) x :
  x ∈ materialized c l -> x ∈ l.
Proof.
  unfold materialized. destruct (scheduled_fault c); [|done].
  apply (subseteq_take _ l).
Qed.

(** ** The predicates the reader builds *)

Lemma nonempty_decide s : nonempty s = bool_decide (s <> "").
Proof. by destruct s. Qed.

Lemma ltb_decide a b : (a <? b) = bool_decide (a < b).
Proof.
  destruct (Z.ltb_spec a b); symmetry;
    [apply bool_decide_eq_true|apply bool_decide_eq_false]; lia.
Qed.

(** Case analysis on the five tests of [buildTraceWhere]. *)
Ltac split_criteria q :=
  unfold buildTraceWhere, spec_fragments, After_zero;
  rewrite ?nonempty_decide, ?ltb_decide, ?decide_bool_decide;
  destruct (bool_decide (spanstore.ServiceName q <> ""));
  destruct (bool_decide (spanstore.OperationName q <> ""));
  destruct (bool_decide (0 < spanstore.StartTimeMin q));
  destruct (bool_decide (0 < spanstore.DurationMin q));
  destruct (bool_decide (0 < spanstore.DurationMax q)).

Lemma buildTraceWhere_fragments q :
  where_ (buildTraceWhere q) = join_AND ((spec_fragments q).*1) /\
  params (buildTraceWhere q) = (spec_fragments q).*2 /\
  conjuncts (where_ (buildTraceWhere q)) = (spec_fragments q).*1.
Proof.
  split_criteria q.
  all: destruct (bool_decide (0 < spanstore.StartTimeMax q)).
  all: split; [reflexivity|split; reflexivity].
Qed.

Lemma buildTraceWhere_eval q r :
  eval_where (where_ (buildTraceWhere q)) (params (buildTraceWhere q)) r
  = Some (forallb (fun fp => fragment_holds fp r) (spec_fragments q)).
Proof.
  unfold eval_where.
  destruct (buildTraceWhere_fragments q) as (_ & -> & ->).
  split_criteria q; reflexivity.
Qed.

Lemma traceWhere_eval traceID (s : Span) :
  eval_where (where_ (traceWhere traceID)) (params (traceWhere traceID))
             (joined_of_Span s)
  = Some (trace_filter traceID s).
Proof.
  unfold traceWhere, trace_filter.
  destruct (N.eqb_spec (model.Low traceID) 0) as [->|Hlo];
    destruct (N.eqb_spec (model.High traceID) 0) as [->|Hhi]; simpl.
  - reflexivity.
  - destruct (N.ltb_spec 0 (model.High traceID)); [|lia].
    unfold eval_where. simpl. by rewrite andb_true_r.
  - destruct (N.ltb_spec 0 (model.Low traceID)); [|lia].
    unfold eval_where. simpl. by rewrite !andb_true_r.
  - destruct (N.ltb_spec 0 (model.Low traceID)); [|lia].
    destruct (N.ltb_spec 0 (model.High traceID)); [|lia].
    unfold eval_where. simpl. by rewrite andb_true_r.
Qed.

Lemma same_trace_eval traceID (s : Span) :
  eval_where "trace_id_low = ? and trace_id_high = ?"
             [PUint64 (model.Low traceID); PUint64 (model.High traceID)]
             (joined_of_Span s)
  = Some (same_trace traceID s).
Proof. unfold eval_where, same_trace. simpl. by rewrite andb_true_r. Qed.

(** ** GetServices and GetOperations *)

Lemma GetServices_eq c :
  GetServices c
  = ((ServiceName <$>
        List.filter (fun s => nonempty (ServiceName s))
          (materialized c (merge_sort by_service_name (services (db c)))),
      fault_err <$> scheduled_fault c), next c).
Proof.
  unfold GetServices, mbind, M_bind.
  rewrite (Select_Some _ c _ eq_refl). unfold mret, M_ret.
  by rewrite foldl_append_if.
Qed.

Lemma GetOperations_eq param c :
  GetOperations param c
  = ((spanstore.mkOperation <$>
        (OperationName <$>
           List.filter (fun o => nonempty (OperationName o))
             (materialized c
                (merge_sort by_operation_name (operations (db c))))),
      fault_err <$> scheduled_fault c), next c).
Proof.
  unfold GetOperations, mbind, M_bind.
  rewrite (Select_Some _ c _ eq_refl). unfold mret, M_ret.
  rewrite foldl_append_if. simpl. by rewrite <- list_fmap_compose.
Qed.

Lemma sorted_nonempty_names {A} (R : relation A) (name : A -> string) c l :
  (forall a b, R a b -> (name a ≤ name b)%string) ->
  StronglySorted R l ->
  let names := name <$> List.filter (fun a => nonempty (name a))
                                    (materialized c l) in
  StronglySorted String.le names /\ "" ∉ names.
Proof.
  intros HR Hs names. split.
  - apply (StronglySorted_fmap _ R); [done|].
    by apply StronglySorted_filter, materialized_StronglySorted.
  - intros (a & Ha & Hin)%list_elem_of_fmap.
    apply list_elem_of_In, filter_In in Hin as [_ Hne].
    rewrite <- Ha in Hne. done.
Qed.

Lemma filter_fmap_names {A} (name : A -> string) l :
  List.filter nonempty (name <$> l)
  = name <$> List.filter (fun a => nonempty (name a)) l.
Proof.
  induction l as [|a l IH]; [done|].
  rewrite fmap_cons. cbn [List.filter].
  destruct (nonempty (name a)); [rewrite fmap_cons|]; by rewrite IH.
Qed.

(** C9: the name lists of GetServices and GetOperations are sorted ascending
    and hold no empty name; what they return is the non-empty names of the
    rows that were materialized (all rows, or the rows read before a storage
    fault), together with the error of that fault, unchanged. *)
Theorem GetServices_GetOperations_sorted_nonempty_partial
  (c : Conn) (param : spanstore.OperationQueryParameters) :
  let service_rows :=
    materialized c (merge_sort by_service_name (services (db c))) in
  let operation_rows :=
    materialized c (merge_sort by_operation_name (operations (db c))) in
  ((GetServices c).1.1
   = List.filter nonempty (ServiceName <$> service_rows) /\
   (GetServices c).1.2 = (fault_err <$> scheduled_fault c) /\
   StronglySorted String.le (GetServices c).1.1 /\
   "" ∉ (GetServices c).1.1) /\
  (spanstore.Name <$> (GetOperations param c).1.1
   = List.filter nonempty (OperationName <$> operation_rows) /\
   (GetOperations param c).1.2 = (fault_err <$> scheduled_fault c) /\
   StronglySorted String.le (spanstore.Name <$> (GetOperations param c).1.1) /\
   "" ∉ (spanstore.Name <$> (GetOperations param c).1.1)).
Proof.
  intros service_rows operation_rows.
  pose proof (@filter_fmap_names) as Hfm.
  split.
  - rewrite GetServices_eq. cbn [fst snd]. rewrite Hfm.
    split; [done|split; [done|]].
    apply (sorted_nonempty_names by_service_name); [done|].
    apply StronglySorted_merge_sort; apply _.
  - rewrite GetOperations_eq. cbn [fst snd].
    rewrite <- list_fmap_compose.
    change (spanstore.Name ∘ spanstore.mkOperation) with (@id string).
    rewrite list_fmap_id, Hfm.
    split; [done|split; [done|]].
    apply (sorted_nonempty_names by_operation_name); [done|].
    apply StronglySorted_merge_sort; apply _.
Qed.

(** ** GetTrace *)

Lemma Where_filter {A} (ctx : A -> joined) w ps (P : A -> bool) rows :
  w <> "" ->
  (forall r, eval_where w ps (ctx r) = Some (P r)) ->
  Where ctx w ps rows = Some (List.filter P rows).
Proof.
  intros Hw Hev. unfold Where. destruct w; [done|].
  by apply select_where_filter.
Qed.

Lemma traceWhere_nonempty traceID :
  model.Low traceID <> 0%N \/ model.High traceID <> 0%N ->
  where_ (traceWhere traceID) <> "".
Proof.
  unfold traceWhere. intros Hne.
  destruct (N.ltb_spec 0 (model.Low traceID));
    destruct (N.ltb_spec 0 (model.High traceID)); try done.
  lia.
Qed.

(** With both halves zero the builder stays empty and the statement is
    rejected. *)
Lemma GetTrace_zero traceID c :
  model.Low traceID = 0%N -> model.High traceID = 0%N ->
  GetTrace traceID c
  = (({| model.Spans := []; model.ProcessMap := [] |}, Some ErrStatement),
     next c).
Proof.
  intros Hlo Hhi. unfold GetTrace, mbind, M_bind, traceWhere.
  rewrite Hlo, Hhi. cbn [N.ltb N.compare]. cbn [new_builder where_ params].
  by erewrite Select_None by reflexivity.
Qed.

Lemma GetTrace_eq traceID c :
  where_ (traceWhere traceID) <> "" ->
  let rows :=
    materialized c
      (List.filter (trace_filter traceID) (load_Span (db c) <$> spans (db c)))
  in
  GetTrace traceID c
  = (({| model.Spans := toModelSpan <$> rows;
         model.ProcessMap := processMapping <$> rows |},
      fault_err <$> scheduled_fault c), next c).
Proof.
  intros Hw rows. unfold GetTrace, mbind, M_bind.
  erewrite Select_Some
    by (apply Where_filter; [done|intros r; apply traceWhere_eval]).
  fold rows. unfold mret, M_ret. by rewrite foldl_append_pair.
Qed.

Lemma filter_all {A} (p : A -> bool) l :
  (forall x, p x = true) -> List.filter p l = l.
Proof.
  intros Hp. induction l as [|x l IH]; simpl; [done|]. by rewrite Hp, IH.
Qed.

(** C10 (as amended): GetTrace constrains a half of the trace identifier
    only when that half is non-zero.  With both halves zero the builder
    stays empty, the statement goes out with an empty condition, which
    storage rejects, and GetTrace returns a Trace without spans together
    with that error.  With exactly one zero half, on a connection without
    fault, only the other half is constrained, so every stored span that
    agrees on that half is in the returned Trace, whatever its other half. *)
Theorem GetTrace_constrains_nonzero_halves
  (c : Conn) (traceID : model.TraceID) :
  scheduled_fault c = None ->
  let stored : list Span := load_Span (db c) <$> spans (db c) in
  let trace := (GetTrace traceID c).1.1 in
  (model.Low traceID = 0%N -> model.High traceID = 0%N ->
     traceWhere traceID = new_builder /\
     (GetTrace traceID c).1
     = ({| model.Spans := []; model.ProcessMap := [] |},
        Some ErrStatement)) /\
  (model.Low traceID <> 0%N -> model.High traceID = 0%N ->
     where_ (traceWhere traceID) = "trace_id_low = ?" /\
     params (traceWhere traceID) = [PUint64 (model.Low traceID)] /\
     model.Spans trace
     = (toModelSpan <$>
          List.filter (fun s : Span => (TraceIDLow s =? model.Low traceID)%N)
                      stored)) /\
  (model.Low traceID = 0%N -> model.High traceID <> 0%N ->
     where_ (traceWhere traceID) = "trace_id_high = ?" /\
     params (traceWhere traceID) = [PUint64 (model.High traceID)] /\
     model.Spans trace
     = (toModelSpan <$>
          List.filter (fun s : Span => (TraceIDHigh s =? model.High traceID)%N)
                      stored)).
Proof.
  intros Hok stored trace. subst trace. split; [|split].
  - intros Hlo Hhi. rewrite GetTrace_zero by done. split; [|done].
    unfold traceWhere. by rewrite Hlo, Hhi.
  - intros Hlo Hhi. rewrite GetTrace_eq by (apply traceWhere_nonempty; tauto).
    cbn [fst snd]. unfold materialized. rewrite Hok. cbn [model.Spans].
    fold stored. unfold traceWhere, trace_filter. rewrite Hhi.
    destruct (N.ltb_spec 0 (model.Low traceID)); [|lia].
    do 2 (split; [done|]). f_equal. apply filter_ext. intros s.
    destruct (N.eqb_spec (model.Low traceID) 0); [done|].
    simpl. by rewrite andb_true_r.
  - intros Hlo Hhi. rewrite GetTrace_eq by (apply traceWhere_nonempty; tauto).
    cbn [fst snd]. unfold materialized. rewrite Hok. cbn [model.Spans].
    fold stored. unfold traceWhere, trace_filter. rewrite Hlo.
    destruct (N.ltb_spec 0 (model.High traceID)); [|lia].
    do 2 (split; [done|]). f_equal. apply filter_ext. intros s.
    destruct (N.eqb_spec (model.High traceID) 0); [done|]. done.
Qed.

(** The spans of the distinct traces (7,1) and (7,2) come back as one Trace
    when the identifier (7,0) is looked up. *)
Lemma GetTrace_constrains_nonzero_halves_witness :
  model.SpanID <$>
    model.Spans (GetTrace (model.mkTraceID 7 0) (mkConn example.shop [])).1.1
  = [1%N; 2%N; 3%N; 4%N].
Proof.
  destruct (GetTrace_constrains_nonzero_halves
              (mkConn example.shop []) (model.mkTraceID 7 0) eq_refl)
    as (_ & Hlow & _).
  destruct (Hlow ltac:(discriminate) eq_refl) as (_ & _ & ->).
  reflexivity.
Defined.

(** The shop stores four spans; looked up with the identifier (0,0),
    GetTrace returns none of them, and an error. *)
Lemma GetTrace_zero_identifier_returns_no_span :
  length (spans example.shop) = 4%nat /\
  (GetTrace (model.mkTraceID 0 0) (mkConn example.shop [])).1
  = ({| model.Spans := []; model.ProcessMap := [] |}, Some ErrStatement) /\
  model.Spans (GetTrace (model.mkTraceID 0 0) (mkConn example.shop [])).1.1
  <> (toModelSpan <$> (load_Span example.shop <$> spans example.shop)).
Proof. split; [reflexivity|split; [reflexivity|discriminate]]. Qed.

(** ** FindTraceIDs *)

Lemma criterion_cases q :
  has_criterion q \/ where_ (buildTraceWhere q) = "".
Proof.
  unfold has_criterion.
  destruct (decide (where_ (buildTraceWhere q) = "")); tauto.
Qed.

Lemma FindTraceIDs_eq q c :
  has_criterion q ->
  FindTraceIDs q c
  = Select (fun db => limit_rows (wrap_int (100 * limit_of q))
                                 (trace_ids (matching_rows q db))) c.
Proof.
  intros Hq.
  unfold FindTraceIDs, Select, limit_of, trace_ids, matching_rows.
  erewrite Where_filter by (done || intros r; apply buildTraceWhere_eval).
  reflexivity.
Qed.

(** Without criterion the statement goes out with an empty condition and is
    rejected. *)
Lemma FindTraceIDs_no_criterion q c :
  where_ (buildTraceWhere q) = "" ->
  FindTraceIDs q c = (([], Some ErrStatement), next c).
Proof.
  intros Hq. unfold FindTraceIDs. rewrite Hq.
  by erewrite Select_None by reflexivity.
Qed.

Lemma FindTraceIDs_next q c : (FindTraceIDs q c).2 = next c.
Proof.
  destruct (criterion_cases q) as [Hq|Hq].
  - rewrite FindTraceIDs_eq by done. apply Select_next.
  - by rewrite FindTraceIDs_no_criterion.
Qed.

Lemma FindTraceIDs_error q c ids e c' :
  FindTraceIDs q c = ((ids, Some e), c') -> raised_by c e.
Proof.
  destruct (criterion_cases q) as [Hq|Hq].
  - rewrite FindTraceIDs_eq by done. apply Select_error.
  - rewrite FindTraceIDs_no_criterion by done. intros [= <- <- <-]. by left.
Qed.

Lemma FindTraceIDs_NoDup q c : NoDup (FindTraceIDs q c).1.1.
Proof.
  destruct (criterion_cases q) as [Hq|Hq];
    [|rewrite FindTraceIDs_no_criterion by done; constructor].
  rewrite FindTraceIDs_eq by done.
  destruct (limit_rows (wrap_int (100 * limit_of q))
              (trace_ids (matching_rows q (db c)))) as [ids|] eqn:Hlim.
  - erewrite Select_Some by exact Hlim. cbn [fst snd].
    apply materialized_NoDup. eapply limit_rows_NoDup; [exact Hlim|].
    apply distinct_spec.
  - erewrite Select_None by exact Hlim. constructor.
Qed.

Lemma limit_of_pos q : 0 < limit_of q.
Proof. unfold limit_of. destruct (Z.leb_spec (spanstore.NumTraces q) 0); lia. Qed.

Lemma wrap_int_small z : - 2 ^ 63 <= z < 2 ^ 63 -> wrap_int z = z.
Proof. intros Hz. unfold wrap_int. rewrite Z.mod_small; lia. Qed.

(** C3 (as amended): the identifiers FindTraceIDs returns are pairwise
    distinct, and there are at most 100 times the requested count of them,
    the count being numTraces, or 10 when numTraces is not positive, as long
    as that product fits Go's 64-bit int. *)
Theorem FindTraceIDs_distinct_and_bounded
  (q : spanstore.TraceQueryParameters) (c : Conn) :
  100 * limit_of q < 2 ^ 63 ->
  NoDup (FindTraceIDs q c).1.1 /\
  Z.of_nat (length (FindTraceIDs q c).1.1) <= 100 * limit_of q.
Proof.
  intros Hfit. split; [apply FindTraceIDs_NoDup|].
  pose proof (limit_of_pos q) as Hpos.
  destruct (criterion_cases q) as [Hq|Hq];
    [|rewrite FindTraceIDs_no_criterion by done; simpl; lia].
  rewrite FindTraceIDs_eq by done. rewrite wrap_int_small by lia.
  destruct (limit_rows (100 * limit_of q)
              (trace_ids (matching_rows q (db c)))) as [ids|] eqn:Hlim.
  - erewrite Select_Some by exact Hlim. cbn [fst snd].
    pose proof (materialized_length c ids).
    apply limit_rows_length in Hlim; lia.
  - erewrite Select_None by exact Hlim. simpl. lia.
Qed.

(** The traces of the service "frontend", one of them asked for. *)
Lemma FindTraceIDs_distinct_and_bounded_witness :
  NoDup (FindTraceIDs (example.of_service "frontend" 1)
                      (mkConn example.shop [])).1.1 /\
  Z.of_nat (length (FindTraceIDs (example.of_service "frontend" 1)
                                 (mkConn example.shop [])).1.1) <= 100.
Proof.
  exact (FindTraceIDs_distinct_and_bounded
           (example.of_service "frontend" 1) (mkConn example.shop [])
           eq_refl).
Defined.

(** One trace of the service "frontend" is asked for; both traces have a
    span of that service, and both identifiers come back. *)
Lemma FindTraceIDs_exceeds_numTraces :
  spanstore.NumTraces (example.of_service "frontend" 1) = 1 /\
  (FindTraceIDs (example.of_service "frontend" 1)
                (mkConn example.shop [])).1
  = ([example.trace_7_1; example.trace_7_2], None) /\
  ~ (Z.of_nat
       (length (FindTraceIDs (example.of_service "frontend" 1)
                             (mkConn example.shop [])).1.1)
     <= spanstore.NumTraces (example.of_service "frontend" 1)).
Proof. split; [reflexivity|split; [reflexivity|]]. vm_compute. tauto. Qed.

(** ** FindTraces *)

Lemma FindTraces_loop_cons traceID traceIDs grouping c :
  FindTraces_loop (traceID :: traceIDs) grouping c
  = match scheduled_fault c with
    | Some f => ((grouping, Some (fault_err f)), next c)
    | None =>
        FindTraces_loop traceIDs
          (foldl group_span grouping (trace_rows traceID (db c))) (next c)
    end.
Proof.
  cbn [FindTraces_loop]. unfold mbind, M_bind.
  erewrite Select_Some; cycle 1.
  { rewrite (Where_filter _ _ _ (same_trace traceID));
      [reflexivity|done|intros r; apply same_trace_eval]. }
  unfold materialized. destruct (scheduled_fault c); reflexivity.
Qed.

(** An invariant of the grouping that every span query preserves holds of
    whatever grouping the loop ends with. *)
Lemma FindTraces_loop_invariant
  (I : list model.TraceID -> gmap model.TraceID model.Trace -> Prop) :
  (forall traceID traceIDs grouping db,
      I (traceID :: traceIDs) grouping ->
      I traceIDs (foldl group_span grouping (trace_rows traceID db))) ->
  forall traceIDs grouping c,
    I traceIDs grouping ->
    exists rest, I rest (FindTraces_loop traceIDs grouping c).1.1.
Proof.
  intros Hstep traceIDs.
  induction traceIDs as [|traceID traceIDs IH]; intros grouping c HI.
  - by exists [].
  - rewrite FindTraces_loop_cons. destruct (scheduled_fault c).
    + by exists (traceID :: traceIDs).
    + eapply IH, Hstep, HI.
Qed.

Lemma FindTraces_loop_error traceIDs grouping c grouping' e c' :
  FindTraces_loop traceIDs grouping c = ((grouping', Some e), c') ->
  raised_by c e.
Proof.
  revert grouping c.
  induction traceIDs as [|traceID traceIDs IH]; intros grouping c.
  - discriminate.
  - rewrite FindTraces_loop_cons.
    destruct (scheduled_fault c) as [f|] eqn:Hf.
    + intros [= <- <- <-]. right. exists f. split; [|done].
      unfold scheduled_fault in Hf.
      destruct (faults c) as [|[f'|] fs]; simplify_eq.
      apply list_elem_of_here.
    + intros Hloop%IH. by apply raised_by_next.
Qed.

(** What [FindTraces] returns, in terms of its two stages. *)
Lemma FindTraces_eq q c :
  FindTraces q c
  = match (FindTraceIDs q c).1.2 with
    | Some e => (([], Some e), next c)
    | None =>
        let loop := FindTraces_loop (FindTraceIDs q c).1.1 ∅ (next c) in
        match loop.1.2 with
        | Some e => (([], Some e), loop.2)
        | None => (((map_to_list loop.1.1).*2, None), loop.2)
        end
    end.
Proof.
  unfold FindTraces, mbind, M_bind.
  rewrite <- (FindTraceIDs_next q c).
  destruct (FindTraceIDs q c) as [[traceIDs [e|]] c1]; cbn [fst snd]; [done|].
  destruct (FindTraces_loop traceIDs ∅ c1) as [[grouping [e|]] c2];
    cbn [fst snd]; [done|].
  unfold mret, M_ret. by rewrite foldl_append.
Qed.

(** Every returned trace is a value of the grouping the loop ended with. *)
Lemma FindTraces_elem_of q c t :
  t ∈ (FindTraces q c).1.1 ->
  exists traceID,
    (FindTraces_loop (FindTraceIDs q c).1.1 ∅ (next c)).1.1 !! traceID
    = Some t.
Proof.
  rewrite FindTraces_eq.
  destruct ((FindTraceIDs q c).1.2); cbn [fst snd]; [by intros ?%elem_of_nil|].
  cbn zeta.
  destruct ((FindTraces_loop (FindTraceIDs q c).1.1 ∅ (next c)).1.2);
    cbn [fst snd]; [by intros ?%elem_of_nil|].
  intros ([k t'] & -> & Hin)%list_elem_of_fmap.
  exists k. by apply elem_of_map_to_list.
Qed.

Lemma group_span_insert traceID grouping s :
  model.Span_TraceID (toModelSpan s) = traceID ->
  let trace0 := default {| model.Spans := []; model.ProcessMap := [] |}
                        (grouping !! traceID) in
  group_span grouping s
  = <[traceID :=
        {| model.Spans := model.Spans trace0 ++ [toModelSpan s];
           model.ProcessMap := model.ProcessMap trace0 ++ [processMapping s] |}]>
      grouping.
Proof.
  intros Hs. unfold group_span. rewrite Hs.
  by destruct (grouping !! traceID).
Qed.

(** The inner loop on rows that all belong to one trace. *)
Lemma foldl_group_span_same traceID rows grouping :
  Forall (fun s => model.Span_TraceID (toModelSpan s) = traceID) rows ->
  rows <> [] ->
  let trace0 := default {| model.Spans := []; model.ProcessMap := [] |}
                        (grouping !! traceID) in
  foldl group_span grouping rows
  = <[traceID :=
        {| model.Spans := model.Spans trace0 ++ (toModelSpan <$> rows);
           model.ProcessMap :=
             model.ProcessMap trace0 ++ (processMapping <$> rows) |}]>
      grouping.
Proof.
  intros Hall. revert grouping.
  induction Hall as [|s rows Hs Hall IH]; intros grouping Hne; [done|].
  cbn [foldl]. rewrite (group_span_insert traceID) by done.
  destruct rows as [|s' rows]; [done|].
  rewrite IH by done.
  rewrite lookup_insert_eq, insert_insert_eq.
  cbn [default from_option id model.Spans model.ProcessMap].
  by rewrite <- !app_assoc.
Qed.

Lemma trace_rows_same traceID db :
  Forall (fun s => model.Span_TraceID (toModelSpan s) = traceID)
         (trace_rows traceID db).
Proof.
  apply Forall_forall. intros s Hs. unfold trace_rows in Hs.
  rewrite merge_sort_Permutation in Hs.
  apply list_elem_of_In, filter_In in Hs as [_ Hs].
  unfold same_trace in Hs. apply andb_true_iff in Hs as [Hlo Hhi].
  apply N.eqb_eq in Hlo, Hhi. destruct traceID as [lo hi].
  simpl in *. by subst.
Qed.

Lemma trace_rows_sorted traceID db :
  StronglySorted by_start_time (trace_rows traceID db).
Proof. apply StronglySorted_merge_sort; apply _. Qed.

(** The grouping after the rows of one more trace have been added. *)
Lemma group_trace_rows traceID db grouping k :
  foldl group_span grouping (trace_rows traceID db) !! k
  = if decide (k = traceID) then
      match trace_rows traceID db with
      | [] => grouping !! traceID
      | rows =>
          let trace0 := default {| model.Spans := []; model.ProcessMap := [] |}
                                (grouping !! traceID) in
          Some {| model.Spans := model.Spans trace0 ++ (toModelSpan <$> rows);
                  model.ProcessMap :=
                    model.ProcessMap trace0 ++ (processMapping <$> rows) |}
      end
    else grouping !! k.
Proof.
  pose proof (trace_rows_same traceID db) as Hsame.
  destruct (trace_rows traceID db) as [|s rows] eqn:Hrows.
  - cbn [foldl]. by destruct (decide (k = traceID)) as [->|].
  - rewrite (foldl_group_span_same traceID) by done.
    rewrite lookup_insert. destruct (decide (traceID = k)) as [->|Hne].
    + by rewrite decide_True.
    + by rewrite decide_False by congruence.
Qed.

Lemma StronglySorted_lookup {A} (R : relation A) l i j x y :
  StronglySorted R l -> (i < j)%nat ->
  l !! i = Some x -> l !! j = Some y -> R x y.
Proof.
  intros Hs. revert i j.
  induction Hs as [|a l Hs IH Hall]; intros i j Hij Hi Hj; [done|].
  destruct j as [|j]; [lia|]. destruct i as [|i]; simpl in *.
  - simplify_eq. rewrite Forall_forall in Hall.
    apply Hall. by eapply list_elem_of_lookup_2.
  - apply (IH i j); [lia|done..].
Qed.

Lemma StronglySorted_ordered l :
  StronglySorted by_Span_StartTime l -> ordered_by_start_time l.
Proof.
  intros Hs i j A B Hi Hj Hlt.
  destruct (decide (i < j)%nat) as [|Hge]; [done|exfalso].
  destruct (decide (i = j)) as [->|Hne].
  - rewrite Hi in Hj. simplify_eq. lia.
  - assert (by_Span_StartTime B A) as Hle
      by (apply (StronglySorted_lookup _ l j i); [done|lia|done..]).
    unfold by_Span_StartTime in Hle. lia.
Qed.

Lemma toModelSpan_sorted rows :
  StronglySorted by_start_time rows ->
  StronglySorted by_Span_StartTime (toModelSpan <$> rows).
Proof. by apply StronglySorted_fmap. Qed.

Lemma sorted_so_far_step traceID traceIDs grouping db :
  sorted_so_far (traceID :: traceIDs) grouping ->
  sorted_so_far traceIDs (foldl group_span grouping (trace_rows traceID db)).
Proof.
  intros (Hnd & Hfresh & Hsorted). apply NoDup_cons in Hnd as [Hnin Hnd].
  split; [done|split].
  - intros k Hk. rewrite group_trace_rows.
    rewrite decide_False by (intros ->; done).
    apply Hfresh. by apply list_elem_of_further.
  - intros k t. rewrite group_trace_rows.
    destruct (decide (k = traceID)) as [->|]; [|apply Hsorted].
    rewrite (Hfresh traceID) by apply list_elem_of_here.
    pose proof (trace_rows_sorted traceID db) as Hrows.
    destruct (trace_rows traceID db) as [|s rows]; [done|].
    intros [= <-]. by apply (toModelSpan_sorted (s :: rows)).
Qed.

(** C7: in every trace FindTraces returns, the spans are in ascending order
    of start time: a span that starts strictly earlier than another span of
    the trace sits at a smaller index of the span list. *)
Theorem FindTraces_spans_ordered_by_start_time
  (q : spanstore.TraceQueryParameters) (c : Conn) :
  Forall (fun t => StronglySorted by_Span_StartTime (model.Spans t) /\
                   ordered_by_start_time (model.Spans t))
         (FindTraces q c).1.1.
Proof.
  apply Forall_forall. intros t (k & Hk)%FindTraces_elem_of.
  destruct (FindTraces_loop_invariant sorted_so_far sorted_so_far_step
              (FindTraceIDs q c).1.1 ∅ (next c)) as (rest & _ & _ & Hsorted).
  { split; [apply FindTraceIDs_NoDup|]. split; [by intros|].
    intros k' t' Hlook. by rewrite lookup_empty in Hlook. }
  assert (StronglySorted by_Span_StartTime (model.Spans t)) by eauto.
  split; [done|by apply StronglySorted_ordered].
Qed.

(** Trace (7,1) of the shop is stored as spans 1, 2, 3 and starts at 100,
    110, 105; found through its operation "query", it comes back as 1, 3,
    2. *)
Lemma FindTraces_spans_ordered_by_start_time_witness :
  exists t,
    (FindTraces (example.of_operation "query") (mkConn example.shop [])).1
    = ([t], None) /\
    model.SpanID <$> model.Spans t = [1%N; 3%N; 2%N] /\
    ordered_by_start_time (model.Spans t).
Proof.
  pose proof (FindTraces_spans_ordered_by_start_time
                (example.of_operation "query") (mkConn example.shop []))
    as Hall.
  rewrite Forall_forall in Hall.
  eexists. split; [|split].
  - vm_compute. reflexivity.
  - reflexivity.
  - refine (proj2 (Hall _ _)).
    vm_compute. apply list_elem_of_here.
Defined.

(** ** Process maps *)

Lemma distinct_length `{EqDecision A} (l seen : list A) :
  (length (distinct seen l) <= length l)%nat.
Proof.
  revert seen. induction l as [|a l IH]; intros seen; simpl; [done|].
  destruct (decide (a ∈ seen)); simpl.
  - specialize (IH seen). lia.
  - specialize (IH (a :: seen)). lia.
Qed.

Lemma one_entry_per_span_per_span t :
  one_entry_per_span t -> per_span_process_map t.
Proof.
  intros Hone. split; [done|]. destruct Hone as (rows & Hspans & Hmap).
  assert (length (model.ProcessMap t) = length (model.Spans t)) as Hlen
    by (by rewrite Hspans, Hmap, !length_fmap).
  split; [done|split].
  - rewrite Hspans, Hmap, <- !list_fmap_compose. done.
  - rewrite Hlen. unfold process_ids.
    etrans; [apply distinct_length|]. by rewrite length_fmap.
Qed.

Lemma per_span_so_far_step traceID traceIDs grouping db :
  per_span_so_far (traceID :: traceIDs) grouping ->
  per_span_so_far traceIDs (foldl group_span grouping (trace_rows traceID db)).
Proof.
  intros Hone k t. rewrite group_trace_rows.
  destruct (decide (k = traceID)) as [->|]; [|apply Hone].
  destruct (trace_rows traceID db) as [|s rows]; [apply Hone|].
  intros [= <-]. destruct (grouping !! traceID) as [t0|] eqn:Ht0.
  - destruct (Hone _ _ Ht0) as (rows0 & Hspans & Hmap).
    exists (rows0 ++ s :: rows). unfold assembled_from.
    cbn [default from_option id model.Spans model.ProcessMap].
    by rewrite Hspans, Hmap, !fmap_app.
  - by exists (s :: rows).
Qed.

(** C1 (as amended): in the Trace GetTrace returns and in every trace
    FindTraces returns, the process map holds one entry per span, in the
    order of the spans: N spans give N entries, the i-th entry carrying the
    process identifier of the i-th span, so that a process identifier shared
    by several spans is repeated; the K distinct identifiers never outnumber
    the entries. *)
Theorem process_map_has_one_entry_per_span :
  (forall c traceID, per_span_process_map (GetTrace traceID c).1.1) /\
  (forall c q, Forall per_span_process_map (FindTraces q c).1.1).
Proof.
  split.
  - intros c traceID. apply one_entry_per_span_per_span.
    destruct (N.eq_dec (model.Low traceID) 0%N) as [Hlo|Hlo];
      [destruct (N.eq_dec (model.High traceID) 0%N) as [Hhi|Hhi]|].
    + rewrite GetTrace_zero by done. by exists [].
    + rewrite GetTrace_eq by (apply traceWhere_nonempty; tauto).
      cbn [fst snd]. by eexists.
    + rewrite GetTrace_eq by (apply traceWhere_nonempty; tauto).
      cbn [fst snd]. by eexists.
  - intros c q. apply Forall_forall.
    intros t (k & Hk)%FindTraces_elem_of.
    apply one_entry_per_span_per_span.
    destruct (FindTraces_loop_invariant per_span_so_far per_span_so_far_step
                (FindTraceIDs q c).1.1 ∅ (next c)) as (rest & Hone).
    { intros k' t' Hlook. by rewrite lookup_empty in Hlook. }
    eauto.
Qed.

(** Trace (7,1) has three spans and two distinct process identifiers; its
    process map has three entries, not two. *)
Lemma GetTrace_process_map_repeats_process :
  let t := (GetTrace example.trace_7_1 (mkConn example.shop [])).1.1 in
  length (model.Spans t) = 3%nat /\
  process_ids t = ["p1"; "p2"] /\
  model.PM_ProcessID <$> model.ProcessMap t = ["p1"; "p2"; "p2"] /\
  length (model.ProcessMap t) <> length (process_ids t).
Proof. vm_compute. repeat split; discriminate. Qed.

(** ** Failures of FindTraces *)

(** C6 (as amended): when FindTraces fails, be it while the identifiers are
    searched or while one trace of the batch is assembled, it returns the
    error the storage raised together with an empty collection; the traces
    assembled before the failure are not returned. *)
Theorem FindTraces_failure_returns_no_trace
  (q : spanstore.TraceQueryParameters) (c : Conn)
  (ret : list model.Trace) (e : error) :
  (FindTraces q c).1 = (ret, Some e) ->
  ret = [] /\ raised_by c e.
Proof.
  rewrite FindTraces_eq.
  destruct (FindTraceIDs q c) as [[traceIDs err] c1] eqn:Hids.
  cbn [fst snd]. destruct err as [e'|].
  - intros [= <- <-]. split; [done|]. by eapply FindTraceIDs_error.
  - cbn zeta.
    destruct (FindTraces_loop traceIDs ∅ (next c)) as [[grouping err] c2]
      eqn:Hloop.
    cbn [fst snd]. destruct err as [e'|]; [|discriminate].
    intros [= <- <-]. split; [done|].
    by eapply raised_by_next, FindTraces_loop_error.
Qed.

Lemma FindTraces_failure_returns_no_trace_witness :
  (FindTraces (example.of_service "frontend" 0)
              (mkConn example.shop
                      [None; None; Some (mkFault 0 example.down)])).1
  = ([], Some example.down) /\
  raised_by (mkConn example.shop [None; None; Some (mkFault 0 example.down)])
            example.down.
Proof.
  split; [reflexivity|].
  exact (proj2 (FindTraces_failure_returns_no_trace
                  (example.of_service "frontend" 0)
                  (mkConn example.shop
                          [None; None; Some (mkFault 0 example.down)])
                  [] example.down eq_refl)).
Defined.

(** The traces of the service "frontend" are asked for and the second span
    query of the batch of two fails: trace (7,1) had been assembled with its
    three spans, and nothing is returned. *)
Lemma FindTraces_drops_assembled_trace :
  let c := mkConn example.shop [None; None; Some (mkFault 0 example.down)] in
  let q := example.of_service "frontend" 0 in
  let loop :=
    FindTraces_loop [example.trace_7_1; example.trace_7_2] ∅ (next c) in
  (FindTraceIDs q c).1 = ([example.trace_7_1; example.trace_7_2], None) /\
  loop.1.2 = Some example.down /\
  (exists t, loop.1.1 !! example.trace_7_1 = Some t /\
             model.SpanID <$> model.Spans t = [1%N; 3%N; 2%N]) /\
  (FindTraces q c).1 = ([], Some example.down).
Proof.
  intros c q loop. split; [reflexivity|split; [reflexivity|split]].
  - eexists. split; [vm_compute; reflexivity|reflexivity].
  - reflexivity.
Qed.

(** ** GetDependencies *)

Lemma count_into_sum `{EqDecision K} (k : K) (groups : list (K * N)) :
  foldr N.add 0%N (count_into k groups).*2
  = (foldr N.add 0%N groups.*2 + 1)%N.
Proof.
  induction groups as [|[k' n] groups IH]; [done|]. cbn [count_into].
  destruct (decide (k = k')); rewrite !fmap_cons; cbn [snd foldr];
    [|rewrite IH]; lia.
Qed.

Lemma count_into_keys `{EqDecision K} (k : K) (groups : list (K * N)) x :
  x ∈ (count_into k groups).*1 -> x = k \/ x ∈ groups.*1.
Proof.
  induction groups as [|[k' n] groups IH]; cbn [count_into].
  - rewrite fmap_cons, elem_of_cons. tauto.
  - destruct (decide (k = k')); rewrite !fmap_cons, !elem_of_cons; [tauto|].
    intros [->|Hx%IH]; tauto.
Qed.

Lemma group_count_sum `{EqDecision K} (keys : list K) :
  foldr N.add 0%N (group_count keys).*2 = N.of_nat (length keys).
Proof.
  unfold group_count.
  assert (forall groups,
             foldr N.add 0%N
               (fold_left (fun groups k => count_into k groups) keys groups).*2
             = (foldr N.add 0%N groups.*2 + N.of_nat (length keys))%N) as Hgen.
  { induction keys as [|k keys IH]; intros groups; cbn [fold_left length].
    - lia.
    - rewrite IH, count_into_sum. lia. }
  rewrite Hgen. simpl. lia.
Qed.

Lemma group_count_keys `{EqDecision K} (keys : list K) x :
  x ∈ (group_count keys).*1 -> x ∈ keys.
Proof.
  unfold group_count.
  assert (forall groups,
             x ∈ (fold_left (fun groups k => count_into k groups)
                            keys groups).*1 ->
             x ∈ keys \/ x ∈ groups.*1) as Hgen.
  { induction keys as [|k keys IH]; intros groups; cbn [fold_left].
    - tauto.
    - intros [Hx|Hx%count_into_keys]%IH; rewrite elem_of_cons; tauto. }
  intros [Hx|Hx]%Hgen; [done|]. by apply elem_of_nil in Hx.
Qed.

Lemma GetDependencies_eq endTs lookback c :
  let rows := materialized c (group_count (dependency_rows (db c))) in
  GetDependencies endTs lookback c
  = ((scan_link <$> rows,
      match rows with
      | [] => fault_err <$> scheduled_fault c
      | _ :: _ => Some (ErrScan "parent_name")
      end), next c).
Proof.
  intros rows. unfold GetDependencies, mbind, M_bind.
  by erewrite Select_Some by reflexivity.
Qed.

Lemma total_calls_links (groups : list (uint64 * string * uint64 * string * N)) :
  total_calls (scan_link <$> groups) = foldr N.add 0%N groups.*2.
Proof.
  induction groups as [|[[[[p pn] ch] cn] n] groups IH]; [done|].
  rewrite !fmap_cons. unfold total_calls in *. cbn [foldr snd].
  by rewrite IH.
Qed.

(** C2 (the code departs from it): S1 of service "a" references S2 of
    service "b".  The statement yields the one row (1, "a", 2, "a", 1), the
    child name being looked up under the service id of S1.  Of that row
    GetDependencies returns the link with parent "1", child "2" and call
    count 1, the two ids as text, no service name, together with the error
    of the column parent_name, which the link has no field for; a second
    edge raises the call count to 2.  This is not the link from "a" to "b"
    without error. *)
Theorem GetDependencies_returns_ids_and_scan_error :
  group_count (dependency_rows (example.a_calls_b 1))
  = [((1%N, "a", 2%N, "a"), 1%N)] /\
  (GetDependencies 1000 1000 (mkConn (example.a_calls_b 1) [])).1
  = ([model.mkDependencyLink "1" "2" 1 ""], Some (ErrScan "parent_name")) /\
  (GetDependencies 1000 1000 (mkConn (example.a_calls_b 2) [])).1
  = ([model.mkDependencyLink "1" "2" 2 ""], Some (ErrScan "parent_name")) /\
  (GetDependencies 1000 1000 (mkConn (example.a_calls_b 1) [])).1
  <> ([model.mkDependencyLink "a" "b" 1 ""], None).
Proof.
  split; [reflexivity|split; [reflexivity|split; [reflexivity|discriminate]]].
Qed.

(** C5 (as amended): GetDependencies uses neither endTs nor lookback: its
    result is the same for every window, and on a connection without fault
    the call counts add up to the number of reference edges that join to
    their spans and services, wherever those spans lie in time; storage
    without reference edges yields an empty link list and no error. *)
Theorem GetDependencies_ignores_window :
  (forall endTs lookback endTs' lookback' c,
      GetDependencies endTs lookback c = GetDependencies endTs' lookback' c) /\
  (forall endTs lookback c,
      scheduled_fault c = None ->
      total_calls (GetDependencies endTs lookback c).1.1
      = N.of_nat (length (dependency_rows (db c)))) /\
  (forall endTs lookback c,
      scheduled_fault c = None -> span_refs (db c) = [] ->
      (GetDependencies endTs lookback c).1 = ([], None)).
Proof.
  split; [reflexivity|split].
  - intros endTs lookback c Hok. rewrite GetDependencies_eq. cbn [fst snd].
    unfold materialized. rewrite Hok.
    by rewrite total_calls_links, group_count_sum.
  - intros endTs lookback c Hok Hrefs. rewrite GetDependencies_eq.
    cbn [fst snd]. unfold materialized, dependency_rows.
    by rewrite Hok, Hrefs.
Qed.

Lemma GetDependencies_ignores_window_witness :
  total_calls
    (GetDependencies 1000000 10 (mkConn (example.a_calls_b 2) [])).1.1 = 2%N /\
  (GetDependencies 1000000 10 (mkConn (example.a_calls_b 0) [])).1
  = ([], None).
Proof.
  destruct GetDependencies_ignores_window as (_ & Hcount & Hempty).
  split.
  - exact (Hcount 1000000 10 (mkConn (example.a_calls_b 2) []) eq_refl).
  - exact (Hempty 1000000 10 (mkConn (example.a_calls_b 0) [])
                  eq_refl eq_refl).
Defined.

(** The two spans of the edge start at 100 and 110, far outside the window
    [999990, 1000000]; the edge is counted all the same. *)
Lemma GetDependencies_counts_edge_outside_window :
  Forall (fun s => ~ (1000000 - 10 <= StartTime s <= 1000000))
         (spans (example.a_calls_b 1)) /\
  (GetDependencies 1000000 10 (mkConn (example.a_calls_b 1) [])).1.1
  = [model.mkDependencyLink "1" "2" 1 ""] /\
  total_calls
    (GetDependencies 1000000 10 (mkConn (example.a_calls_b 1) [])).1.1 = 1%N.
Proof.
  split; [|split; reflexivity].
  repeat constructor; simpl; lia.
Qed.

(** ** The criteria filter *)

(** What the two duration fragments select once both bounds are set. *)
Lemma buildTraceWhere_duration_bounds lo hi r :
  0 < lo -> 0 < hi ->
  let b := buildTraceWhere (example.duration_between lo hi) in
  eval_where (where_ b) (params b) r
  = Some ((Duration_ (j_span r) <? lo) && (hi <? Duration_ (j_span r))).
Proof.
  intros Hlo Hhi b. subst b. rewrite buildTraceWhere_eval.
  unfold spec_fragments. cbn [example.duration_between
    spanstore.ServiceName spanstore.OperationName spanstore.StartTimeMin
    spanstore.DurationMin spanstore.DurationMax].
  repeat case_decide; try done; try lia.
  unfold fragment_holds. cbn -[Z.ltb]. by rewrite andb_true_r.
Qed.

(** C4 (the code departs from it): with durationMin = 5 and durationMax = 20
    the predicate is [duration < 5 AND duration > 20]; a span that lasts 10,
    inside the bounds, is rejected, and so is every span of the shop, whose
    spans last 20, 3, 4 and 10.  With durationMin = 5 alone, the spans that
    last 3 and 4 are the ones selected. *)
Theorem duration_bounds_are_inverted :
  where_ (buildTraceWhere (example.duration_between 5 20))
  = "duration < ? AND duration > ?" /\
  params (buildTraceWhere (example.duration_between 5 20))
  = [PDuration 5; PDuration 20] /\
  eval_where "duration < ? AND duration > ?" [PDuration 5; PDuration 20]
             (example.row_of_duration 10) = Some false /\
  (FindTraceIDs (example.duration_between 5 20) (mkConn example.shop [])).1
  = ([], None) /\
  eval_where (where_ (buildTraceWhere (example.duration_between 5 0)))
             (params (buildTraceWhere (example.duration_between 5 0)))
             (example.row_of_duration 10) = Some false /\
  eval_where (where_ (buildTraceWhere (example.duration_between 5 0)))
             (params (buildTraceWhere (example.duration_between 5 0)))
             (example.row_of_duration 3) = Some true /\
  (FindTraceIDs (example.duration_between 5 0) (mkConn example.shop [])).1
  = ([example.trace_7_1], None).
Proof. repeat split; reflexivity. Qed.

Lemma spec_fragments_elem q :
  let fragments := (spec_fragments q).*1 in
  ("service.service_name = ?" ∈ fragments <-> spanstore.ServiceName q <> "") /\
  ("operation.operation_name = ?" ∈ fragments
   <-> spanstore.OperationName q <> "") /\
  ("start_time >= ?" ∈ fragments <-> 0 < spanstore.StartTimeMin q) /\
  ("duration < ?" ∈ fragments <-> 0 < spanstore.DurationMin q) /\
  ("duration > ?" ∈ fragments <-> 0 < spanstore.DurationMax q).
Proof.
  unfold spec_fragments.
  destruct (decide (spanstore.ServiceName q <> ""));
  destruct (decide (spanstore.OperationName q <> ""));
  destruct (decide (0 < spanstore.StartTimeMin q));
  destruct (decide (0 < spanstore.DurationMin q));
  destruct (decide (0 < spanstore.DurationMax q)).
  all: cbn [app fmap list_fmap fst].
  all: rewrite ?elem_of_cons, ?elem_of_nil.
  all: repeat split; try tauto; try (intros; exfalso; intuition congruence).
Qed.

(** C8 (as amended): buildTraceWhere emits the fragment of a criterion if and
    only if the service name, or the operation name, is not empty, the lower
    bound on the start time lies strictly after the zero time, the duration
    bound is strictly positive.  The emitted fragments come in the order
    service, operation, start time, duration bounds, joined with AND, each
    with its bound parameter, and a row satisfies the predicate exactly when
    it satisfies every emitted fragment.  Without any such criterion the
    builder is empty and every row satisfies the predicate. *)
Theorem buildTraceWhere_emits_present_criteria
  (q : spanstore.TraceQueryParameters) :
  let b := buildTraceWhere q in
  let fragments := conjuncts (where_ b) in
  (("service.service_name = ?" ∈ fragments
    <-> spanstore.ServiceName q <> "") /\
   ("operation.operation_name = ?" ∈ fragments
    <-> spanstore.OperationName q <> "") /\
   ("start_time >= ?" ∈ fragments <-> 0 < spanstore.StartTimeMin q) /\
   ("duration < ?" ∈ fragments <-> 0 < spanstore.DurationMin q) /\
   ("duration > ?" ∈ fragments <-> 0 < spanstore.DurationMax q)) /\
  fragments = (spec_fragments q).*1 /\
  where_ b = join_AND (spec_fragments q).*1 /\
  params b = (spec_fragments q).*2 /\
  (forall r, eval_where (where_ b) (params b) r
             = Some (forallb (fun fp => fragment_holds fp r)
                             (spec_fragments q))) /\
  (spec_fragments q = [] ->
   b = new_builder /\ forall r, eval_where (where_ b) (params b) r = Some true).
Proof.
  intros b fragments. subst b fragments.
  destruct (buildTraceWhere_fragments q) as (Hwhere & Hparams & Hconj).
  split; [rewrite Hconj; apply spec_fragments_elem|].
  do 3 (split; [done|]). split; [apply buildTraceWhere_eval|].
  intros Hnone. split.
  - destruct (buildTraceWhere q) as [w ps]. simpl in *.
    by rewrite Hwhere, Hparams, Hnone.
  - intros r. by rewrite buildTraceWhere_eval, Hnone.
Qed.

Lemma buildTraceWhere_emits_present_criteria_witness :
  buildTraceWhere (example.no_criteria 0) = new_builder /\
  forall r, eval_where "" [] r = Some true.
Proof.
  exact (proj2 (proj2 (proj2 (proj2 (proj2
           (buildTraceWhere_emits_present_criteria (example.no_criteria 0))))))
           eq_refl).
Defined.

(** A duration bound of -1 is not zero, and no fragment is emitted for it. *)
Lemma buildTraceWhere_skips_negative_duration :
  spanstore.DurationMin (example.duration_between (-1) 0) <> 0 /\
  conjuncts (where_ (buildTraceWhere (example.duration_between (-1) 0))) = [] /\
  buildTraceWhere (example.duration_between (-1) 0) = new_builder.
Proof. split; [discriminate|split; reflexivity]. Qed.

(** * Further properties of the reader *)

(** ** Healthy connections *)

Lemma healthy_scheduled_fault c : healthy c -> scheduled_fault c = None.
Proof.
  unfold healthy, scheduled_fault.
  destruct (faults c) as [|[f|] fs]; simpl; intros; done.
Qed.

Lemma healthy_next c : healthy c -> healthy (next c).
Proof.
  unfold healthy, next. simpl.
  destruct (faults c) as [|[f|] fs]; simpl; intros; done.
Qed.

Lemma db_next c : db (next c) = db c.
Proof. reflexivity. Qed.

(** ** The catalogue of names *)

Lemma Permutation_List_filter {A} (p : A -> bool) l l' :
  l ≡ₚ l' -> List.filter p l ≡ₚ List.filter p l'.
Proof.
  induction 1 as [|x l l' _ IH|x y l|l l' l'' _ IH _ IH']; simpl.
  - done.
  - destruct (p x); by rewrite IH.
  - destruct (p x), (p y); try done. apply perm_swap.
  - by etrans.
Qed.

(** X1: on a connection whose next statement does not fail, GetServices
    returns every non-empty service name of storage, as many times as it is
    stored, and no error; GetOperations does the same for the operation
    names, whatever service its parameter names. *)
Theorem GetServices_GetOperations_list_every_name
  (c : Conn) (param : spanstore.OperationQueryParameters) :
  scheduled_fault c = None ->
  ((GetServices c).1.1
   ≡ₚ List.filter nonempty (ServiceName <$> services (db c)) /\
   (GetServices c).1.2 = None) /\
  (spanstore.Name <$> (GetOperations param c).1.1
   ≡ₚ List.filter nonempty (OperationName <$> operations (db c)) /\
   (GetOperations param c).1.2 = None).
Proof.
  intros Hok. split.
  - rewrite GetServices_eq. cbn [fst snd]. unfold materialized.
    rewrite Hok. split; [|done]. rewrite filter_fmap_names.
    apply fmap_Permutation, Permutation_List_filter, merge_sort_Permutation.
  - rewrite GetOperations_eq. cbn [fst snd]. unfold materialized.
    rewrite Hok. split; [|done].
    rewrite <- list_fmap_compose.
    change (spanstore.Name ∘ spanstore.mkOperation) with (@id string).
    rewrite list_fmap_id, filter_fmap_names.
    apply fmap_Permutation, Permutation_List_filter, merge_sort_Permutation.
Qed.

Lemma GetServices_GetOperations_list_every_name_witness :
  ((GetServices (mkConn example.shop [])).1.1
   ≡ₚ List.filter nonempty (ServiceName <$> services example.shop) /\
   (GetServices (mkConn example.shop [])).1.2 = None) /\
  (spanstore.Name <$>
     (GetOperations (spanstore.mkOperationQuery "backend")
                    (mkConn example.shop [])).1.1
   ≡ₚ List.filter nonempty (OperationName <$> operations example.shop) /\
   (GetOperations (spanstore.mkOperationQuery "backend")
                  (mkConn example.shop [])).1.2 = None).
Proof.
  exact (GetServices_GetOperations_list_every_name
           (mkConn example.shop []) (spanstore.mkOperationQuery "backend")
           eq_refl).
Defined.

(** ** The upper bound on the start time *)

(** X2: the upper bound on the start time is never applied: two criteria
    values that differ in StartTimeMax only build the same predicate, and
    FindTraceIDs and FindTraces return the same for both. *)
Theorem StartTimeMax_is_never_applied
  (q : spanstore.TraceQueryParameters) (t : Time) (c : Conn) :
  buildTraceWhere (with_StartTimeMax q t) = buildTraceWhere q /\
  FindTraceIDs (with_StartTimeMax q t) c = FindTraceIDs q c /\
  FindTraces (with_StartTimeMax q t) c = FindTraces q c.
Proof.
  assert (buildTraceWhere (with_StartTimeMax q t) = buildTraceWhere q) as Hb.
  { unfold buildTraceWhere, with_StartTimeMax.
    cbn [spanstore.ServiceName spanstore.OperationName spanstore.StartTimeMin
         spanstore.StartTimeMax spanstore.DurationMin spanstore.DurationMax].
    by destruct (After_zero t), (After_zero (spanstore.StartTimeMax q)). }
  assert (FindTraceIDs (with_StartTimeMax q t) c = FindTraceIDs q c) as Hids.
  { unfold FindTraceIDs. by rewrite Hb. }
  split; [done|split; [done|]].
  unfold FindTraces, mbind, M_bind. by rewrite Hids.
Qed.

(** ** The identifiers FindTraceIDs finds *)

Lemma span_operation_service_spec db r :
  r ∈ span_operation_service db
  <-> joins db (j_span r) (j_operation r) (j_service r).
Proof.
  unfold span_operation_service, joins. split.
  - intros (row & Hr & Hrow)%list_elem_of_bind.
    apply list_elem_of_bind in Hr as (operation & Hr & Hop).
    apply list_elem_of_bind in Hr as (service & Hr & Hsvc).
    apply list_elem_of_singleton in Hr as ->. simpl.
    apply list_elem_of_In, filter_In in Hop as [Hop Hopid].
    apply list_elem_of_In, filter_In in Hsvc as [Hsvc Hsvcid].
    apply N.eqb_eq in Hopid, Hsvcid.
    by rewrite <- !list_elem_of_In in *.
  - intros (Hrow & Hop & Hsvc & Hopid & Hsvcid).
    apply list_elem_of_bind. exists (j_span r). split; [|done].
    apply list_elem_of_bind. exists (j_operation r). split.
    + apply list_elem_of_bind. exists (j_service r). split.
      * destruct r. apply list_elem_of_singleton. done.
      * apply list_elem_of_In, filter_In. rewrite <- list_elem_of_In.
        split; [done|]. by apply N.eqb_eq.
    + apply list_elem_of_In, filter_In. rewrite <- list_elem_of_In.
      split; [done|]. by apply N.eqb_eq.
Qed.

Lemma fragment_holds_service s r :
  fragment_holds ("service.service_name = ?", PString s) r
  = String.eqb (ServiceName (j_service r)) s.
Proof. reflexivity. Qed.

Lemma fragment_holds_operation s r :
  fragment_holds ("operation.operation_name = ?", PString s) r
  = String.eqb (OperationName (j_operation r)) s.
Proof. reflexivity. Qed.

Lemma fragment_holds_start_time t r :
  fragment_holds ("start_time >= ?", PTime t) r = (t <=? StartTime (j_span r)).
Proof. reflexivity. Qed.

Lemma fragment_holds_duration_lt d r :
  fragment_holds ("duration < ?", PDuration d) r
  = (Duration_ (j_span r) <? d).
Proof. reflexivity. Qed.

Lemma fragment_holds_duration_gt d r :
  fragment_holds ("duration > ?", PDuration d) r
  = (d <? Duration_ (j_span r)).
Proof. reflexivity. Qed.

Lemma forallb_criterion {A} (P : Prop) `{Decision P} (f : A -> bool) x :
  forallb f (if decide P then [x] else []) = true <-> (P -> f x = true).
Proof.
  destruct (decide P); simpl; [rewrite andb_true_r|]; tauto.
Qed.

Lemma spec_fragments_hold q r :
  forallb (fun fp => fragment_holds fp r) (spec_fragments q) = true
  <-> matches q (j_span r) (j_operation r) (j_service r).
Proof.
  unfold spec_fragments, matches.
  rewrite !forallb_app, !andb_true_iff, !forallb_criterion.
  rewrite fragment_holds_service, fragment_holds_operation,
    fragment_holds_start_time, fragment_holds_duration_lt,
    fragment_holds_duration_gt.
  rewrite !String.eqb_eq, Z.leb_le, !Z.ltb_lt. tauto.
Qed.

Lemma matching_rows_spec q db r :
  r ∈ matching_rows q db
  <-> joins db (j_span r) (j_operation r) (j_service r) /\
      matches q (j_span r) (j_operation r) (j_service r).
Proof.
  unfold matching_rows.
  rewrite list_elem_of_In, filter_In, <- list_elem_of_In.
  by rewrite span_operation_service_spec, spec_fragments_hold.
Qed.

Lemma trace_ids_spec rows traceID :
  traceID ∈ trace_ids rows
  <-> exists r, r ∈ rows /\ traceID = trace_id_of (j_span r).
Proof.
  unfold trace_ids. rewrite (proj2 (distinct_spec _ [])).
  rewrite list_elem_of_fmap, elem_of_nil. unfold trace_id_of.
  split; [intros [(r & -> & Hr) _]|intros (r & Hr & ->)]; eauto.
Qed.

Lemma limit_rows_subseteq {A} n (l l' : list A) x :
  limit_rows n l = Some l' -> x ∈ l' -> x ∈ l.
Proof.
  unfold limit_rows. destruct (n =? 0); [by intros [= <-]|].
  destruct (n <? 0); [done|]. intros [= <-]. apply (subseteq_take _ l).
Qed.

Lemma FindTraceIDs_elem_of q c traceID :
  traceID ∈ (FindTraceIDs q c).1.1 ->
  exists r, r ∈ matching_rows q (db c) /\ traceID = trace_id_of (j_span r).
Proof.
  destruct (criterion_cases q) as [Hq|Hq];
    [|rewrite FindTraceIDs_no_criterion by done; by intros ?%elem_of_nil].
  rewrite FindTraceIDs_eq by done.
  destruct (limit_rows (wrap_int (100 * limit_of q))
              (trace_ids (matching_rows q (db c)))) as [ids|] eqn:Hlim.
  - erewrite Select_Some by exact Hlim. cbn [fst snd].
    intros Hin%materialized_subseteq.
    eapply limit_rows_subseteq in Hin; [|exact Hlim].
    by apply trace_ids_spec in Hin.
  - erewrite Select_None by exact Hlim. by intros ?%elem_of_nil.
Qed.

(** X3: every identifier FindTraceIDs returns is the identifier of a stored
    span that has its operation and its service in storage and that
    satisfies, together with them, every criterion the predicate binds:
    equal names, start time not before StartTimeMin, and the duration
    comparisons as the source writes them. *)
Theorem FindTraceIDs_returns_matching_spans
  (q : spanstore.TraceQueryParameters) (c : Conn) (traceID : model.TraceID) :
  traceID ∈ (FindTraceIDs q c).1.1 ->
  exists span operation service,
    joins (db c) span operation service /\
    matches q span operation service /\
    traceID = trace_id_of span.
Proof.
  intros (r & Hr & ->)%FindTraceIDs_elem_of.
  apply matching_rows_spec in Hr as [Hjoin Hmatch]. eauto 6.
Qed.

Lemma FindTraceIDs_returns_matching_spans_witness :
  exists span operation service,
    joins example.shop span operation service /\
    matches (spanstore.mkQuery "frontend" "GET /" 150 0 0 0 1)
            span operation service /\
    example.trace_7_2 = trace_id_of span.
Proof.
  apply (FindTraceIDs_returns_matching_spans
           (spanstore.mkQuery "frontend" "GET /" 150 0 0 0 1)
           (mkConn example.shop []) example.trace_7_2).
  vm_compute. apply list_elem_of_here.
Defined.

(** What FindTraceIDs returns when nothing cuts the result short. *)
Lemma FindTraceIDs_unlimited q c :
  has_criterion q ->
  scheduled_fault c = None ->
  100 * limit_of q < 2 ^ 63 ->
  Z.of_nat (length (trace_ids (matching_rows q (db c)))) <= 100 * limit_of q ->
  (FindTraceIDs q c).1 = (trace_ids (matching_rows q (db c)), None).
Proof.
  intros Hq Hok Hfit Hfew. pose proof (limit_of_pos q) as Hpos.
  rewrite FindTraceIDs_eq by done. rewrite wrap_int_small by lia.
  erewrite Select_Some; cycle 1.
  { unfold limit_rows. destruct (Z.eqb_spec (100 * limit_of q) 0); [lia|].
    destruct (Z.ltb_spec (100 * limit_of q) 0); [lia|]. reflexivity. }
  cbn [fst snd]. unfold materialized. rewrite Hok. cbn [fmap option_fmap option_map].
  by rewrite firstn_all2 by lia.
Qed.

(** X4: when the criteria bind at least one criterion, the statement does
    not fail and the spans that match the criteria belong to at most 100
    times the requested count of traces, FindTraceIDs returns no error and
    the identifier of every stored span that matches, each identifier
    once. *)
Theorem FindTraceIDs_finds_every_matching_span
  (q : spanstore.TraceQueryParameters) (c : Conn) :
  has_criterion q ->
  scheduled_fault c = None ->
  100 * limit_of q < 2 ^ 63 ->
  Z.of_nat (length (trace_ids (matching_rows q (db c)))) <= 100 * limit_of q ->
  (FindTraceIDs q c).1.2 = None /\
  NoDup (FindTraceIDs q c).1.1 /\
  forall span operation service,
    joins (db c) span operation service ->
    matches q span operation service ->
    trace_id_of span ∈ (FindTraceIDs q c).1.1.
Proof.
  intros Hq Hok Hfit Hfew. split; [|split; [apply FindTraceIDs_NoDup|]].
  - by rewrite FindTraceIDs_unlimited.
  - intros span operation service Hjoin Hmatch.
    rewrite FindTraceIDs_unlimited by done. cbn [fst].
    apply trace_ids_spec. exists (mkJoined span operation service).
    split; [|done]. by apply matching_rows_spec.
Qed.

Lemma FindTraceIDs_finds_every_matching_span_witness :
  (FindTraceIDs (example.of_service "frontend" 1)
                (mkConn example.shop [])).1.2 = None /\
  NoDup (FindTraceIDs (example.of_service "frontend" 1)
                      (mkConn example.shop [])).1.1 /\
  forall span operation service,
    joins example.shop span operation service ->
    matches (example.of_service "frontend" 1) span operation service ->
    trace_id_of span
    ∈ (FindTraceIDs (example.of_service "frontend" 1)
                    (mkConn example.shop [])).1.1.
Proof.
  apply (FindTraceIDs_finds_every_matching_span
           (example.of_service "frontend" 1) (mkConn example.shop []));
    [discriminate|reflexivity|reflexivity|].
  vm_compute. discriminate.
Defined.

(** ** The traces FindTraces returns *)

Lemma FindTraces_loop_ok traceIDs grouping c grouping' c' k :
  FindTraces_loop traceIDs grouping c = ((grouping', None), c') ->
  NoDup traceIDs ->
  (forall k', k' ∈ traceIDs -> grouping !! k' = None) ->
  grouping' !! k
  = if decide (k ∈ traceIDs) then
      match trace_rows k (db c) with
      | [] => None
      | _ => Some (whole_trace (db c) k)
      end
    else grouping !! k.
Proof.
  revert grouping c.
  induction traceIDs as [|traceID traceIDs IH]; intros grouping c.
  - intros [= <- <-] _ _. rewrite decide_False; [done|apply not_elem_of_nil].
  - rewrite FindTraces_loop_cons.
    destruct (scheduled_fault c); [discriminate|].
    intros Hloop [Hnin Hnd]%NoDup_cons Hfresh.
    rewrite (IH _ _ Hloop Hnd); cycle 1.
    { intros k' Hk'. rewrite group_trace_rows.
      rewrite decide_False by (intros ->; done).
      apply Hfresh. by apply list_elem_of_further. }
    rewrite db_next, group_trace_rows.
    destruct (decide (k = traceID)) as [->|Hne].
    + rewrite decide_False by done.
      rewrite decide_True by apply list_elem_of_here.
      rewrite (Hfresh traceID) by apply list_elem_of_here.
      unfold whole_trace.
      by destruct (trace_rows traceID (db c)).
    + destruct (decide (k ∈ traceIDs)) as [Hin|Hnin'].
      * by rewrite decide_True by (by apply list_elem_of_further).
      * rewrite decide_False; [done|].
        rewrite elem_of_cons. tauto.
Qed.

Lemma FindTraces_loop_healthy traceIDs grouping c :
  healthy c -> (FindTraces_loop traceIDs grouping c).1.2 = None.
Proof.
  revert grouping c.
  induction traceIDs as [|traceID traceIDs IH]; intros grouping c Hc; [done|].
  rewrite FindTraces_loop_cons, healthy_scheduled_fault by done.
  by apply IH, healthy_next.
Qed.

Lemma FindTraceIDs_healthy q c :
  has_criterion q ->
  scheduled_fault c = None -> 100 * limit_of q < 2 ^ 63 ->
  (FindTraceIDs q c).1.2 = None.
Proof.
  intros Hq Hok Hfit. pose proof (limit_of_pos q) as Hpos.
  rewrite FindTraceIDs_eq by done. rewrite wrap_int_small by lia.
  unfold limit_rows. destruct (Z.eqb_spec (100 * limit_of q) 0); [lia|].
  destruct (Z.ltb_spec (100 * limit_of q) 0); [lia|].
  erewrite Select_Some by reflexivity. cbn [fst snd]. by rewrite Hok.
Qed.

(** An identifier that was found has stored spans. *)
Lemma found_trace_rows q c traceID :
  traceID ∈ (FindTraceIDs q c).1.1 -> trace_rows traceID (db c) <> [].
Proof.
  intros (r & Hr & ->)%FindTraceIDs_elem_of.
  apply matching_rows_spec in Hr as [(Hrow & _) _].
  assert (load_Span (db c) (j_span r)
          ∈ trace_rows (trace_id_of (j_span r)) (db c)) as Hin.
  { unfold trace_rows. rewrite merge_sort_Permutation.
    apply list_elem_of_In, filter_In. split.
    - apply list_elem_of_In, list_elem_of_fmap. eauto.
    - unfold same_trace, trace_id_of. simpl. by rewrite !N.eqb_refl. }
  intros Hnil. rewrite Hnil in Hin. by apply elem_of_nil in Hin.
Qed.

(** The grouping behind a result without error: one whole trace per
    identifier found. *)
Lemma FindTraces_grouping q c :
  (FindTraces q c).1.2 = None ->
  exists grouping : gmap model.TraceID model.Trace,
    (FindTraces q c).1.1 = (map_to_list grouping).*2 /\
    forall k, grouping !! k
              = if decide (k ∈ (FindTraceIDs q c).1.1)
                then Some (whole_trace (db c) k) else None.
Proof.
  rewrite FindTraces_eq.
  destruct ((FindTraceIDs q c).1.2); [discriminate|]. cbn zeta.
  destruct (FindTraces_loop (FindTraceIDs q c).1.1 ∅ (next c))
    as [[grouping [e|]] c'] eqn:Hloop; cbn [fst snd]; [discriminate|].
  intros _. exists grouping. split; [done|]. intros k.
  rewrite (FindTraces_loop_ok _ _ _ _ _ k Hloop);
    [|apply FindTraceIDs_NoDup|intros; apply lookup_empty].
  rewrite db_next, lookup_empty.
  destruct (decide (k ∈ (FindTraceIDs q c).1.1)) as [Hin|]; [|done].
  apply found_trace_rows in Hin.
  by destruct (trace_rows k (db c)).
Qed.

Lemma FindTraces_healthy q c :
  has_criterion q ->
  healthy c -> 100 * limit_of q < 2 ^ 63 -> (FindTraces q c).1.2 = None.
Proof.
  intros Hq Hc Hfit. rewrite FindTraces_eq.
  rewrite FindTraceIDs_healthy by auto using healthy_scheduled_fault.
  cbn zeta.
  by rewrite (FindTraces_loop_healthy _ _ _ (healthy_next _ Hc)).
Qed.

(** X5: whenever FindTraces reports no error, what it returns is, in some
    order, one trace per identifier FindTraceIDs found, holding all the
    stored spans of that identifier in order of start time, whether or not
    they match the criteria themselves.  It reports no error on a connection
    on which no statement fails, as long as the criteria bind at least one
    criterion and 100 times the requested count fits Go's int. *)
Theorem FindTraces_returns_whole_traces
  (q : spanstore.TraceQueryParameters) (c : Conn) :
  ((FindTraces q c).1.2 = None ->
   (FindTraces q c).1.1
   ≡ₚ whole_trace (db c) <$> (FindTraceIDs q c).1.1) /\
  (has_criterion q -> healthy c -> 100 * limit_of q < 2 ^ 63 ->
   (FindTraces q c).1.2 = None).
Proof.
  split.
  - intros (grouping & -> & Hlook)%FindTraces_grouping.
    set (ids := (FindTraceIDs q c).1.1) in *.
    assert (map_to_list grouping
            ≡ₚ (fun k => (k, whole_trace (db c) k)) <$> ids) as ->.
    { apply NoDup_Permutation; [apply NoDup_map_to_list| |].
      - apply (NoDup_fmap_1 fst). rewrite <- list_fmap_compose.
        change (fst ∘ _) with (@id model.TraceID). rewrite list_fmap_id.
        apply FindTraceIDs_NoDup.
      - intros [k t]. rewrite elem_of_map_to_list, Hlook, list_elem_of_fmap.
        destruct (decide (k ∈ ids)) as [Hin|Hnin].
        + split; [intros [= <-]; eauto|]. by intros (k' & [= <- ->] & _).
        + split; [done|]. by intros (k' & [= <- ->] & ?). }
    by rewrite <- list_fmap_compose.
  - apply FindTraces_healthy.
Qed.

Lemma FindTraces_returns_whole_traces_witness :
  (FindTraces (example.of_service "frontend" 0)
              (mkConn example.shop [])).1.2 = None /\
  (FindTraces (example.of_service "frontend" 0) (mkConn example.shop [])).1.1
  ≡ₚ [whole_trace example.shop example.trace_7_1;
      whole_trace example.shop example.trace_7_2].
Proof.
  destruct (FindTraces_returns_whole_traces
              (example.of_service "frontend" 0) (mkConn example.shop []))
    as [Hwhole Hok].
  assert (has_criterion (example.of_service "frontend" 0)) as Hq
    by discriminate.
  split; [exact (Hok Hq eq_refl eq_refl)|].
  exact (Hwhole (Hok Hq eq_refl eq_refl)).
Defined.

Lemma FindTraces_failure_free_or_empty q c :
  (FindTraces q c).1.2 = None \/ (FindTraces q c).1.1 = [].
Proof.
  rewrite FindTraces_eq.
  destruct ((FindTraceIDs q c).1.2); [by right|]. cbn zeta.
  destruct ((FindTraces_loop (FindTraceIDs q c).1.1 ∅ (next c)).1.2);
    [by right|by left].
Qed.

(** X6: FindTraces never returns an empty trace, never mixes the spans of
    two trace identifiers in one trace, and never returns two traces for one
    identifier: the returned traces pair off with pairwise distinct
    identifiers among those FindTraceIDs found, each trace holding at least
    one span and only spans of its identifier. *)
Theorem FindTraces_one_trace_per_identifier
  (q : spanstore.TraceQueryParameters) (c : Conn) :
  exists traceIDs,
    NoDup traceIDs /\
    traceIDs ⊆ (FindTraceIDs q c).1.1 /\
    Forall2 (fun traceID t =>
               model.Spans t <> [] /\
               Forall (fun s => model.Span_TraceID s = traceID)
                      (model.Spans t))
            traceIDs (FindTraces q c).1.1.
Proof.
  destruct ((FindTraces q c).1.2) as [e|] eqn:Herr.
  - exists []. split; [constructor|split; [by intros ? ?%elem_of_nil|]].
    destruct (FindTraces_failure_free_or_empty q c) as [Hnone|Hnil];
      [congruence|rewrite Hnil; constructor].
  - destruct (FindTraces_grouping q c Herr) as (grouping & -> & Hlook).
    exists (map_to_list grouping).*1.
    split; [apply NoDup_fst_map_to_list|split].
    + intros k ([k' t] & -> & Hkt)%list_elem_of_fmap.
      apply elem_of_map_to_list in Hkt. rewrite Hlook in Hkt. simpl.
      by destruct (decide (k' ∈ (FindTraceIDs q c).1.1)).
    + apply Forall2_fmap, Forall_Forall2_diag, Forall_forall.
      intros [k t] Hkt%elem_of_map_to_list. rewrite Hlook in Hkt. simpl.
      destruct (decide (k ∈ (FindTraceIDs q c).1.1)) as [Hin|]; [|done].
      injection Hkt as <-. unfold whole_trace. cbn [model.Spans]. split.
      * apply found_trace_rows in Hin.
        by destruct (trace_rows k (db c)).
      * apply Forall_fmap. apply trace_rows_same.
Qed.

(** ** GetTrace on a full identifier *)

Lemma filter_none {A} (p : A -> bool) l :
  (forall x, x ∈ l -> p x = false) -> List.filter p l = [].
Proof.
  induction l as [|x l IH]; intros Hp; simpl; [done|].
  rewrite (Hp x) by apply list_elem_of_here.
  apply IH. intros y Hy. by apply Hp, list_elem_of_further.
Qed.

Lemma GetTrace_full_identifier c traceID :
  scheduled_fault c = None ->
  model.Low traceID <> 0%N -> model.High traceID <> 0%N ->
  (GetTrace traceID c).1
  = ({| model.Spans := toModelSpan <$> stored_spans (db c) traceID;
        model.ProcessMap := processMapping <$> stored_spans (db c) traceID |},
     None).
Proof.
  intros Hok Hlo Hhi.
  rewrite GetTrace_eq by (apply traceWhere_nonempty; tauto). cbn [fst snd].
  unfold materialized. rewrite Hok. unfold stored_spans.
  rewrite (filter_ext (trace_filter traceID) (same_trace traceID)); [done|].
  intros s. unfold trace_filter, same_trace.
  destruct (N.eqb_spec (model.Low traceID) 0); [done|].
  by destruct (N.eqb_spec (model.High traceID) 0).
Qed.

(** X7: looked up with both halves of the identifier non-zero, on a
    connection whose next statement does not fail, GetTrace returns exactly
    the stored spans that carry both halves, in storage order, and no error;
    when no stored span carries the identifier it returns a trace without
    spans and without process map, and still no error. *)
Theorem GetTrace_returns_the_spans_of_the_identifier
  (c : Conn) (traceID : model.TraceID) :
  scheduled_fault c = None ->
  model.Low traceID <> 0%N -> model.High traceID <> 0%N ->
  (GetTrace traceID c).1
  = ({| model.Spans := toModelSpan <$> stored_spans (db c) traceID;
        model.ProcessMap := processMapping <$> stored_spans (db c) traceID |},
     None) /\
  ((forall s, s ∈ spans (db c) -> trace_id_of s <> traceID) ->
   (GetTrace traceID c).1
   = ({| model.Spans := []; model.ProcessMap := [] |}, None)).
Proof.
  intros Hok Hlo Hhi. rewrite GetTrace_full_identifier by done.
  split; [done|]. intros Hnone.
  assert (stored_spans (db c) traceID = []) as ->; [|done].
  apply filter_none. intros s (row & -> & Hrow)%list_elem_of_fmap.
  specialize (Hnone row Hrow). unfold same_trace, trace_id_of in *.
  cbn [load_Span columns].
  destruct (N.eqb_spec (TraceIDLow row) (model.Low traceID)); [|done].
  destruct (N.eqb_spec (TraceIDHigh row) (model.High traceID)); [|done].
  destruct traceID. simpl in *. congruence.
Qed.

Lemma GetTrace_returns_the_spans_of_the_identifier_witness :
  model.SpanID <$>
    model.Spans (GetTrace example.trace_7_1 (mkConn example.shop [])).1.1
  = [1%N; 2%N; 3%N] /\
  (GetTrace (model.mkTraceID 9 9) (mkConn example.shop [])).1
  = ({| model.Spans := []; model.ProcessMap := [] |}, None).
Proof.
  split.
  - rewrite (proj1 (GetTrace_returns_the_spans_of_the_identifier
                      (mkConn example.shop []) example.trace_7_1 eq_refl
                      ltac:(discriminate) ltac:(discriminate))).
    reflexivity.
  - apply (GetTrace_returns_the_spans_of_the_identifier
             (mkConn example.shop []) (model.mkTraceID 9 9) eq_refl
             ltac:(discriminate) ltac:(discriminate)).
    intros s Hs. simpl in Hs.
    repeat (apply elem_of_cons in Hs as [->|Hs]; [discriminate|]).
    by apply elem_of_nil in Hs.
Defined.

(** X8: FindTraces and GetTrace agree on a trace: when FindTraces reports no
    error, every identifier FindTraceIDs found, if both its halves are
    non-zero, has a trace among those FindTraces returns that holds the
    same spans and the same process mappings as the trace GetTrace returns
    for that identifier over the same storage, up to their order; and that
    trace is not empty. *)
Theorem FindTraces_agrees_with_GetTrace
  (q : spanstore.TraceQueryParameters) (c c' : Conn)
  (traceID : model.TraceID) :
  (FindTraces q c).1.2 = None ->
  traceID ∈ (FindTraceIDs q c).1.1 ->
  db c' = db c -> scheduled_fault c' = None ->
  model.Low traceID <> 0%N -> model.High traceID <> 0%N ->
  exists t,
    t ∈ (FindTraces q c).1.1 /\
    model.Spans t ≡ₚ model.Spans (GetTrace traceID c').1.1 /\
    model.ProcessMap t ≡ₚ model.ProcessMap (GetTrace traceID c').1.1 /\
    model.Spans (GetTrace traceID c').1.1 <> [].
Proof.
  intros Herr Hin Hdb Hok Hlo Hhi.
  destruct (FindTraces_grouping q c Herr) as (grouping & -> & Hlook).
  exists (whole_trace (db c) traceID).
  rewrite GetTrace_full_identifier by done. cbn [fst model.Spans model.ProcessMap].
  rewrite Hdb.
  assert (trace_rows traceID (db c) ≡ₚ stored_spans (db c) traceID) as Hperm
    by apply merge_sort_Permutation.
  split; [|split; [|split]].
  - apply list_elem_of_fmap. exists (traceID, whole_trace (db c) traceID).
    split; [done|]. apply elem_of_map_to_list. rewrite Hlook.
    by rewrite decide_True.
  - unfold whole_trace. cbn [model.Spans]. by rewrite Hperm.
  - unfold whole_trace. cbn [model.ProcessMap]. by rewrite Hperm.
  - apply found_trace_rows in Hin. intros Hnil%fmap_nil_inv.
    rewrite Hnil in Hperm. by apply Permutation_nil_r in Hperm.
Qed.

Lemma FindTraces_agrees_with_GetTrace_witness :
  exists t,
    t ∈ (FindTraces (example.of_service "frontend" 0)
                    (mkConn example.shop [])).1.1 /\
    model.Spans t
    ≡ₚ model.Spans
         (GetTrace example.trace_7_1 (mkConn example.shop [])).1.1 /\
    model.ProcessMap t
    ≡ₚ model.ProcessMap
         (GetTrace example.trace_7_1 (mkConn example.shop [])).1.1 /\
    model.Spans (GetTrace example.trace_7_1 (mkConn example.shop [])).1.1
    <> [].
Proof.
  apply (FindTraces_agrees_with_GetTrace
           (example.of_service "frontend" 0) (mkConn example.shop [])
           (mkConn example.shop []) example.trace_7_1);
    try reflexivity; try discriminate.
  vm_compute. apply list_elem_of_here.
Defined.

(** ** The links GetDependencies returns *)

Lemma count_of_count_into `{EqDecision K} (k k' : K) (groups : list (K * N)) :
  count_of k' (count_into k groups)
  = (count_of k' groups + if decide (k = k') then 1 else 0)%N.
Proof.
  induction groups as [|[k0 n] groups IH]; cbn [count_into count_of].
  - destruct (decide (k' = k)), (decide (k = k')); congruence || lia.
  - destruct (decide (k = k0)) as [->|Hne]; cbn [count_of].
    + destruct (decide (k' = k0)) as [->|];
        [rewrite decide_True by done|rewrite decide_False by done]; lia.
    + destruct (decide (k' = k0)) as [->|]; [|apply IH].
      rewrite decide_False by done. lia.
Qed.

Lemma count_into_NoDup `{EqDecision K} (k : K) (groups : list (K * N)) :
  NoDup groups.*1 -> NoDup (count_into k groups).*1.
Proof.
  induction groups as [|[k0 n] groups IH]; cbn [count_into].
  - intros _. apply NoDup_singleton.
  - intros Hnd. change (NoDup (k0 :: groups.*1)) in Hnd.
    apply NoDup_cons in Hnd as [Hnin Hnd].
    destruct (decide (k = k0)) as [->|Hne].
    + change (NoDup (k0 :: groups.*1)). by constructor.
    + change (NoDup (k0 :: (count_into k groups).*1)).
      constructor; [|by apply IH].
      intros [->|Hin]%count_into_keys; done.
Qed.

Lemma count_of_elem_of `{EqDecision K} (k : K) n (groups : list (K * N)) :
  NoDup groups.*1 -> (k, n) ∈ groups -> count_of k groups = n.
Proof.
  induction groups as [|[k0 n0] groups IH]; [by intros _ ?%elem_of_nil|].
  intros Hnd. change (NoDup (k0 :: groups.*1)) in Hnd.
  apply NoDup_cons in Hnd as [Hnin Hnd]. intros [Heq|Hin]%elem_of_cons.
  - injection Heq as <- <-. cbn [count_of]. by rewrite decide_True.
  - cbn [count_of]. destruct (decide (k = k0)) as [->|]; [|by apply IH].
    destruct Hnin. apply list_elem_of_fmap. by exists (k0, n).
Qed.

Lemma group_count_spec `{EqDecision K} (keys : list K) :
  NoDup (group_count keys).*1 /\
  forall k n, (k, n) ∈ group_count keys ->
              n = N.of_nat (occurrences k keys) /\ (1 <= n)%N.
Proof.
  assert (forall groups,
             NoDup groups.*1 ->
             NoDup (fold_left (fun groups k => count_into k groups)
                              keys groups).*1 /\
             forall k,
               count_of k (fold_left (fun groups k => count_into k groups)
                                     keys groups)
               = (count_of k groups + N.of_nat (occurrences k keys))%N)
    as Hgen.
  { induction keys as [|k0 keys IH]; intros groups Hnd; cbn [fold_left].
    - split; [done|]. intros k. unfold occurrences. simpl. lia.
    - destruct (IH (count_into k0 groups)) as [Hnd' Hcount];
        [by apply count_into_NoDup|].
      split; [done|]. intros k. rewrite Hcount, count_of_count_into.
      unfold occurrences. cbn [List.filter].
      destruct (decide (k0 = k)) as [->|Hne].
      + rewrite bool_decide_eq_true_2 by done. cbn [length]. lia.
      + rewrite bool_decide_eq_false_2 by done. lia. }
  destruct (Hgen [] (NoDup_nil_2)) as [Hnd Hcount].
  fold (group_count keys) in *.
  split; [done|]. intros k n Hin.
  assert (k ∈ keys) as Hk.
  { apply group_count_keys, list_elem_of_fmap. by exists (k, n). }
  assert (n = N.of_nat (occurrences k keys)) as ->.
  { rewrite <- (count_of_elem_of k n (group_count keys)) by done.
    rewrite Hcount. simpl. lia. }
  split; [done|].
  unfold occurrences.
  destruct (List.filter (fun y => bool_decide (y = k)) keys) eqn:Hf;
    [|simpl; lia].
  assert (In k (List.filter (fun y => bool_decide (y = k)) keys)) as Hin'.
  { apply filter_In. split; [by apply list_elem_of_In|].
    by apply bool_decide_eq_true. }
  rewrite Hf in Hin'. destruct Hin'.
Qed.

Lemma GetDependencies_links endTs lookback c :
  (GetDependencies endTs lookback c).1.1
  = (scan_link <$> materialized c (group_count (dependency_rows (db c)))).
Proof. by rewrite GetDependencies_eq. Qed.

Lemma materialized_fmap {A B} (f : A -> B) c l :
  f <$> materialized c l = materialized c (f <$> l).
Proof.
  unfold materialized. destruct (scheduled_fault c); [|done].
  apply fmap_take.
Qed.

Lemma column_text_inj a b : column_text a = column_text b -> a = b.
Proof.
  unfold column_text. intros Heq.
  apply DecimalN.Unsigned.to_uint_inj.
  assert (Some (N.to_uint a) = Some (N.to_uint b)) as [= ->]; [|done].
  by rewrite <- !NilEmpty.usu, Heq.
Qed.

(** What the joins of the statement make of the tables, row by row. *)
Lemma dependency_rows_joins db p pn ch cn :
  (p, pn, ch, cn) ∈ dependency_rows db ->
  exists ref source_spans source_service child_spans child_service,
    ref ∈ span_refs db /\
    source_spans ∈ spans db /\ ID source_spans = span_ref_id ref /\
    source_service ∈ services db /\
    service_id source_service = ServiceID source_spans /\
    child_spans ∈ spans db /\ ID child_spans = ChildSpanID ref /\
    child_service ∈ services db /\
    service_id child_service = ServiceID source_spans /\
    p = ServiceID source_spans /\ pn = ServiceName source_service /\
    ch = ServiceID child_spans /\ cn = ServiceName child_service.
Proof.
  unfold dependency_rows.
  intros (ref & Hrow & Href)%list_elem_of_bind.
  apply list_elem_of_bind in Hrow as (src & Hrow & Hsrc).
  apply list_elem_of_bind in Hrow as (src_svc & Hrow & Hsrc_svc).
  apply list_elem_of_bind in Hrow as (chd & Hrow & Hchd).
  apply list_elem_of_bind in Hrow as (chd_svc & Hrow & Hchd_svc).
  apply list_elem_of_singleton in Hrow. simplify_eq.
  apply list_elem_of_In, filter_In in Hsrc as [Hsrc ?%N.eqb_eq].
  apply list_elem_of_In, filter_In in Hsrc_svc as [Hsrc_svc ?%N.eqb_eq].
  apply list_elem_of_In, filter_In in Hchd as [Hchd ?%N.eqb_eq].
  apply list_elem_of_In, filter_In in Hchd_svc as [Hchd_svc ?%N.eqb_eq].
  repeat match goal with H : In _ _ |- _ => apply list_elem_of_In in H end.
  exists ref, src, src_svc, chd, chd_svc. by repeat split.
Qed.

Lemma NoDup_fmap_eq {A B} (f : A -> B) l x y :
  NoDup (f <$> l) -> x ∈ l -> y ∈ l -> f x = f y -> x = y.
Proof.
  induction l as [|a l IH]; [by intros _ ?%elem_of_nil|].
  rewrite fmap_cons.
  intros [Hnin Hnd]%NoDup_cons [->|Hx]%elem_of_cons [->|Hy]%elem_of_cons Hf.
  - done.
  - destruct Hnin. rewrite Hf. by apply list_elem_of_fmap_2.
  - destruct Hnin. rewrite <- Hf. by apply list_elem_of_fmap_2.
  - by apply IH.
Qed.

(** With unique service ids, a row of the statement is known by the two
    service ids it carries. *)
Lemma dependency_rows_ends db r1 r2 :
  NoDup (service_id <$> services db) ->
  r1 ∈ dependency_rows db -> r2 ∈ dependency_rows db ->
  row_ends r1 = row_ends r2 -> r1 = r2.
Proof.
  intros Hpk Hr1 Hr2 Hends.
  destruct r1 as [[[p1 pn1] ch1] cn1], r2 as [[[p2 pn2] ch2] cn2].
  injection Hends as Hp%column_text_inj Hch%column_text_inj. subst p2 ch2.
  apply dependency_rows_joins in Hr1
    as (_ & src1 & ss1 & _ & cs1 & _ & _ & _ & Hss1 & Hss1id & _ & _
        & Hcs1 & Hcs1id & -> & -> & _ & ->).
  apply dependency_rows_joins in Hr2
    as (_ & src2 & ss2 & _ & cs2 & _ & _ & _ & Hss2 & Hss2id & _ & _
        & Hcs2 & Hcs2id & Hp & -> & _ & ->).
  assert (ss1 = ss2) as ->
    by (apply (NoDup_fmap_eq service_id (services db)); congruence).
  assert (cs1 = cs2) as ->
    by (apply (NoDup_fmap_eq service_id (services db)); congruence).
  done.
Qed.

Lemma occurrences_fmap `{EqDecision A, EqDecision B} (f : A -> B) k l :
  (forall y, y ∈ l -> f y = f k -> y = k) ->
  occurrences (f k) (f <$> l) = occurrences k l.
Proof.
  unfold occurrences. induction l as [|a l IH]; intros Hinj; [done|].
  rewrite fmap_cons. cbn [List.filter].
  assert (length (List.filter (fun y => bool_decide (y = f k)) (f <$> l))
          = length (List.filter (fun y => bool_decide (y = k)) l)) as IH'
    by (apply IH; intros y Hy; apply Hinj; by apply list_elem_of_further).
  destruct (decide (a = k)) as [->|Hne].
  - rewrite !bool_decide_eq_true_2 by done. cbn [length]. by rewrite IH'.
  - rewrite !bool_decide_eq_false_2; [done|done|].
    intros Hf. apply Hne, Hinj; [apply list_elem_of_here|done].
Qed.

(** X9: when service ids are unique in storage, as a primary key is,
    GetDependencies returns at most one link for each pair of parent and
    child, and the call count of a link is the number of joined reference
    edges between that parent and that child, never zero. *)
Theorem GetDependencies_one_link_per_pair
  (endTs : Time) (lookback : Duration) (c : Conn) :
  NoDup (service_id <$> services (db c)) ->
  NoDup (link_ends <$> (GetDependencies endTs lookback c).1.1) /\
  Forall (fun link =>
            model.CallCount link
            = N.of_nat (occurrences (link_ends link)
                                    (row_ends <$> dependency_rows (db c))) /\
            (1 <= model.CallCount link)%N)
         (GetDependencies endTs lookback c).1.1.
Proof.
  intros Hpk. rewrite GetDependencies_links.
  destruct (group_count_spec (dependency_rows (db c))) as [Hnd Hcount].
  assert (forall g, g ∈ group_count (dependency_rows (db c)) ->
                    g.1 ∈ dependency_rows (db c)) as Hkeys.
  { intros g Hg. apply group_count_keys, list_elem_of_fmap. eauto. }
  split.
  - rewrite <- list_fmap_compose, materialized_fmap.
    apply materialized_NoDup.
    assert (link_ends ∘ scan_link <$> group_count (dependency_rows (db c))
            = row_ends ∘ fst <$> group_count (dependency_rows (db c))) as ->
      by (apply list_fmap_ext; by intros _ [[[[p pn] ch] cn] n] _).
    rewrite list_fmap_compose.
    apply NoDup_fmap_2_strong; [|done].
    intros r1 r2 Hr1%group_count_keys Hr2%group_count_keys.
    by apply (dependency_rows_ends (db c)).
  - apply Forall_forall.
    intros link (g & -> & Hg%materialized_subseteq)%list_elem_of_fmap.
    pose proof (Hkeys g Hg) as Hrow.
    destruct g as [[[[p pn] ch] cn] n].
    apply Hcount in Hg as [-> Hpos]. split; [|done].
    cbn [scan_link model.CallCount]. f_equal. symmetry.
    apply (occurrences_fmap row_ends (p, pn, ch, cn)).
    intros r Hr Hends. by apply (dependency_rows_ends (db c)).
Qed.

Lemma GetDependencies_one_link_per_pair_witness :
  NoDup (link_ends <$>
           (GetDependencies 1000 1000
              (mkConn (example.a_calls_b 2) [])).1.1) /\
  Forall (fun link =>
            model.CallCount link
            = N.of_nat (occurrences (link_ends link)
                          (row_ends <$>
                             dependency_rows (example.a_calls_b 2))) /\
            (1 <= model.CallCount link)%N)
         (GetDependencies 1000 1000 (mkConn (example.a_calls_b 2) [])).1.1.
Proof.
  apply (GetDependencies_one_link_per_pair
           1000 1000 (mkConn (example.a_calls_b 2) [])).
  vm_compute. repeat constructor; rewrite ?elem_of_cons, ?elem_of_nil;
    intuition discriminate.
Defined.

Lemma GetDependencies_edge_links endTs lookback c link :
  link ∈ (GetDependencies endTs lookback c).1.1 -> edge_link (db c) link.
Proof.
  rewrite GetDependencies_links.
  intros (g & -> & Hg%materialized_subseteq)%list_elem_of_fmap.
  assert (g.1 ∈ dependency_rows (db c)) as Hrow
    by (apply group_count_keys, list_elem_of_fmap; eauto).
  destruct g as [[[[p pn] ch] cn] n].
  apply dependency_rows_joins in Hrow
    as (ref & src & src_svc & chd & _ & ? & ? & ? & ? & ? & ? & ? & _ & _
        & -> & _ & -> & _).
  exists ref, src, src_svc, chd. by repeat split.
Qed.

(** X10: every link GetDependencies returns stems from a stored reference
    edge of which both the referencing span and the referenced span are
    stored, and the service of the referencing span too: an edge that
    dangles on either side is not counted.  The parent of the link is the
    service id of the referencing span and its child the service id of the
    referenced span, both as text; the link names no source. *)
Theorem GetDependencies_links_stem_from_stored_edges
  (endTs : Time) (lookback : Duration) (c : Conn) :
  Forall (edge_link (db c)) (GetDependencies endTs lookback c).1.1.
Proof. apply Forall_forall. intros link. apply GetDependencies_edge_links. Qed.




(** ** The first failure of FindTraces *)

Lemma FindTraceIDs_error_scheduled q c :
  has_criterion q ->
  100 * limit_of q < 2 ^ 63 ->
  (FindTraceIDs q c).1.2 = (fault_err <$> scheduled_fault c).
Proof.
  intros Hq Hfit. pose proof (limit_of_pos q) as Hpos.
  rewrite FindTraceIDs_eq by done. rewrite wrap_int_small by lia.
  unfold limit_rows. destruct (Z.eqb_spec (100 * limit_of q) 0); [lia|].
  destruct (Z.ltb_spec (100 * limit_of q) 0); [lia|].
  by erewrite Select_Some by reflexivity.
Qed.

Lemma next_faults c f rest :
  faults c = f :: rest -> next c = mkConn (db c) rest.
Proof. intros Hf. unfold next. by rewrite Hf. Qed.

Lemma FindTraces_loop_fails traceIDs grouping c n f rest :
  faults c = replicate n None ++ Some f :: rest ->
  (n < length traceIDs)%nat ->
  exists grouping',
    FindTraces_loop traceIDs grouping c
    = ((grouping', Some (fault_err f)), mkConn (db c) rest).
Proof.
  revert traceIDs grouping c.
  induction n as [|n IH]; intros [|traceID traceIDs] grouping c Hf Hlen;
    simpl in Hlen; try lia; rewrite FindTraces_loop_cons;
    unfold scheduled_fault; rewrite Hf; simpl.
  - exists grouping. by erewrite next_faults by exact Hf.
  - destruct (IH traceIDs
                (foldl group_span grouping (trace_rows traceID (db c)))
                (next c)) as (grouping' & ->); [|lia|by eexists].
    by erewrite next_faults by exact Hf.
Qed.

(** X12: FindTraces stops at the first statement that fails.  For criteria
    that bind at least one criterion: when the n statements before the first
    scheduled fault succeed and FindTraces gets to issue one more (the
    search for identifiers, then one statement per identifier found), it
    returns that fault's error with an empty collection, and it issues no
    statement after the failed one: the rest of the schedule is left as it
    was. *)
Theorem FindTraces_stops_at_first_failure
  (q : spanstore.TraceQueryParameters) (c : Conn)
  (n : nat) (f : fault) (rest : list (option fault)) :
  has_criterion q ->
  100 * limit_of q < 2 ^ 63 ->
  faults c = replicate n None ++ Some f :: rest ->
  (n <= length (FindTraceIDs q c).1.1)%nat ->
  FindTraces q c = (([], Some (fault_err f)), mkConn (db c) rest).
Proof.
  intros Hq Hfit Hf Hlen. rewrite FindTraces_eq.
  rewrite FindTraceIDs_error_scheduled by done. unfold scheduled_fault.
  destruct n as [|n]; rewrite Hf; simpl.
  - by erewrite next_faults by exact Hf.
  - destruct (FindTraces_loop_fails (FindTraceIDs q c).1.1 ∅ (next c)
                n f rest) as (grouping' & ->); [|lia|done].
    by erewrite next_faults by exact Hf.
Qed.

Lemma FindTraces_stops_at_first_failure_witness :
  FindTraces (example.of_service "frontend" 0)
             (mkConn example.shop
                     [None; None; Some (mkFault 3 example.down); None])
  = (([], Some example.down), mkConn example.shop [None]).
Proof.
  exact (FindTraces_stops_at_first_failure
           (example.of_service "frontend" 0)
           (mkConn example.shop
                   [None; None; Some (mkFault 3 example.down); None])
           2 (mkFault 3 example.down) [None] ltac:(discriminate)
           eq_refl eq_refl ltac:(vm_compute; lia)).
Defined.

(** ** An empty table of spans *)

Lemma dependency_rows_no_spans db :
  spans db = [] -> dependency_rows db = [].
Proof.
  intros Hspans. apply elem_of_nil_inv. intros [[[p pn] ch] cn] Hin.
  apply dependency_rows_joins in Hin as (ref & src & ? & ? & ? & _ & Hsrc & _).
  rewrite Hspans in Hsrc. by apply elem_of_nil in Hsrc.
Qed.

(** X13: when storage holds no span and no statement fails, the queries on
    spans succeed with an empty result: FindTraceIDs finds no identifier and
    FindTraces returns no trace, for criteria that bind at least one
    criterion; GetTrace returns a trace without spans, for an identifier
    that is not (0,0); GetDependencies returns no link; none of them with an
    error (100 times the requested count has to fit Go's int). *)
Theorem no_span_no_result
  (q : spanstore.TraceQueryParameters) (traceID : model.TraceID)
  (endTs : Time) (lookback : Duration) (c : Conn) :
  spans (db c) = [] -> healthy c -> 100 * limit_of q < 2 ^ 63 ->
  has_criterion q ->
  model.Low traceID <> 0%N \/ model.High traceID <> 0%N ->
  (FindTraceIDs q c).1 = ([], None) /\
  (FindTraces q c).1 = ([], None) /\
  (GetTrace traceID c).1
  = ({| model.Spans := []; model.ProcessMap := [] |}, None) /\
  (GetDependencies endTs lookback c).1 = ([], None).
Proof.
  intros Hspans Hc Hfit Hq Hid.
  pose proof (healthy_scheduled_fault c Hc) as Hok.
  pose proof (limit_of_pos q) as Hpos.
  assert (matching_rows q (db c) = []) as Hrows
    by (unfold matching_rows, span_operation_service; by rewrite Hspans).
  assert ((FindTraceIDs q c).1 = ([], None)) as Hids.
  { rewrite FindTraceIDs_unlimited;
      [by rewrite Hrows|done|done|done|rewrite Hrows; simpl; lia]. }
  split; [done|split; [|split]].
  - rewrite FindTraces_eq, Hids. cbn. by rewrite map_to_list_empty.
  - rewrite GetTrace_eq by (by apply traceWhere_nonempty). cbn [fst snd].
    unfold materialized. by rewrite Hok, Hspans.
  - rewrite GetDependencies_eq. cbn [fst snd]. unfold materialized.
    by rewrite Hok, dependency_rows_no_spans.
Qed.

Lemma no_span_no_result_witness :
  (FindTraceIDs (example.of_service "frontend" 0)
                (mkConn (mkDB (services example.shop) (operations example.shop)
                              [] (span_refs example.shop)) [])).1
  = ([], None) /\
  (FindTraces (example.of_service "frontend" 0)
              (mkConn (mkDB (services example.shop) (operations example.shop)
                            [] (span_refs example.shop)) [])).1
  = ([], None) /\
  (GetTrace example.trace_7_1
            (mkConn (mkDB (services example.shop) (operations example.shop)
                          [] (span_refs example.shop)) [])).1
  = ({| model.Spans := []; model.ProcessMap := [] |}, None) /\
  (GetDependencies 0 0
     (mkConn (mkDB (services example.shop) (operations example.shop)
                   [] (span_refs example.shop)) [])).1
  = ([], None).
Proof.
  apply (no_span_no_result (example.of_service "frontend" 0)
           example.trace_7_1 0 0
           (mkConn (mkDB (services example.shop) (operations example.shop)
                         [] (span_refs example.shop)) []));
    [reflexivity|reflexivity|reflexivity|discriminate|left; discriminate].
Defined.
